(** * CategoryCards: scroll-driven flip/spread animation and hover picking

    A shallow embedding of [src/scripts/CategoryCards.js] (the later of the
    two variants kept in the repository, the one whose [checkIntersections]
    tests [interactionsEnabled] and [mouseIsOver] separately) together with
    the driver of [src/scripts/three-setup.js] that constructs the manager,
    creates the five cards and then calls [animate] once per frame.

    Numbers.  A JavaScript Number is modelled as an exact rational or one of
    the three special values [+Infinity], [-Infinity], [NaN].  Arithmetic on
    finite values is exact (no rounding, no overflow); zero is unsigned, so a
    division by zero takes the sign of its numerator.  The special values
    follow IEEE 754: [NaN] is absorbing, compares false with everything, and
    is returned by [Math.min]/[Math.max] whenever it is an argument.
    The code rounds every operation to the nearest double; what is stated
    of the code is therefore what rounding to nearest keeps (ranges,
    signs, orders, thresholds, exact zeros), and the exact values of the
    model only serve as steps of the proofs.

    Objects.  The card meshes live in the array [cards]; a reference to a
    mesh ([hoveredCard], a ray-cast hit) is its position in that array, so
    [===] on meshes is equality of positions.  The DOM, the camera and the
    ray caster are external: what the code reads from them is an argument of
    the function that reads it. *)

From Stdlib Require Import QArith Qabs Lqa Lia List Bool String PeanoNat.
From Stdlib Require Import Znat.
Import ListNotations.

Set Implicit Arguments.

(* ================================================================== *)
(** ** JavaScript numbers *)

Module JS.

Inductive number : Type :=
| Fin (q : Q)
| PInf
| NInf
| NaN.

(** Equality of values (rationals are compared as fractions). *)
Definition eqv (a b : number) : Prop :=
  match a, b with
  | Fin x, Fin y => (x == y)%Q
  | PInf, PInf | NInf, NInf | NaN, NaN => True
  | _, _ => False
  end.

Definition finite (a : number) : Prop :=
  match a with Fin _ => True | _ => False end.

Definition Qlt_bool (x y : Q) : bool := negb (Qle_bool y x).

(** Sign of a number: [Gt] positive, [Lt] negative, [Eq] zero (or NaN). *)
Definition sgn (a : number) : comparison :=
  match a with
  | Fin q => (q ?= 0)%Q
  | PInf => Gt
  | NInf => Lt
  | NaN => Eq
  end.

Definition sgn_mul (s t : comparison) : comparison :=
  match s, t with
  | Eq, _ | _, Eq => Eq
  | Gt, Gt | Lt, Lt => Gt
  | _, _ => Lt
  end.

(** An infinity of the given sign; sign zero is the invalid operation. *)
Definition inf_of (s : comparison) : number :=
  match s with Gt => PInf | Lt => NInf | Eq => NaN end.

Definition add (a b : number) : number :=
  match a, b with
  | NaN, _ | _, NaN => NaN
  | Fin x, Fin y => Fin (x + y)
  | PInf, NInf | NInf, PInf => NaN
  | PInf, _ | _, PInf => PInf
  | NInf, _ | _, NInf => NInf
  end.

Definition neg (a : number) : number :=
  match a with
  | Fin x => Fin (- x)
  | PInf => NInf
  | NInf => PInf
  | NaN => NaN
  end.

Definition sub (a b : number) : number :=
  match a, b with
  | Fin x, Fin y => Fin (x - y)
  | _, _ => add a (neg b)
  end.

Definition mul (a b : number) : number :=
  match a, b with
  | NaN, _ | _, NaN => NaN
  | Fin x, Fin y => Fin (x * y)
  | _, _ => inf_of (sgn_mul (sgn a) (sgn b))
  end.

Definition div (a b : number) : number :=
  match a, b with
  | NaN, _ | _, NaN => NaN
  | Fin x, Fin y =>
      if Qeq_bool y 0 then inf_of (x ?= 0)%Q else Fin (x / y)
  | Fin _, _ => Fin 0
  | _, Fin y =>
      inf_of (sgn_mul (sgn a) (if Qeq_bool y 0 then Gt else (y ?= 0)%Q))
  | _, _ => NaN
  end.

(** [a < b], [a <= b], [a >= b]: false as soon as one side is NaN. *)
Definition lt (a b : number) : bool :=
  match a, b with
  | NaN, _ | _, NaN => false
  | Fin x, Fin y => Qlt_bool x y
  | _, NInf => false
  | PInf, _ => false
  | _, _ => true
  end.

Definition le (a b : number) : bool :=
  match a, b with
  | NaN, _ | _, NaN => false
  | Fin x, Fin y => Qle_bool x y
  | NInf, _ => true
  | _, PInf => true
  | _, _ => false
  end.

Definition ge (a b : number) : bool := le b a.

(** [Math.min(a, b)] and [Math.max(a, b)]. *)
Definition Math_min (a b : number) : number :=
  match a, b with
  | NaN, _ | _, NaN => NaN
  | _, _ => if le a b then a else b
  end.

Definition Math_max (a b : number) : number :=
  match a, b with
  | NaN, _ | _, NaN => NaN
  | _, _ => if le b a then a else b
  end.

(** [Math.pow(a, n)] for a natural exponent [n] (the code only uses 3). *)
Fixpoint Math_pow (a : number) (n : nat) : number :=
  match n with
  | O => Fin 1
  | S O => a
  | S m => mul a (Math_pow a m)
  end.

(** [Math.abs]. *)
Definition Math_abs (a : number) : number :=
  match a with
  | Fin x => Fin (Qabs x)
  | PInf | NInf => PInf
  | NaN => NaN
  end.

(** Truthiness of a number: everything but zero and NaN. *)
Definition truthy (a : number) : bool :=
  match a with
  | Fin q => negb (Qeq_bool q 0)
  | NaN => false
  | _ => true
  end.

(** [a || b] on numbers. *)
Definition or_else (a b : number) : number := if truthy a then a else b.

(** [Math.PI], the double nearest to pi, as the fraction it denotes. *)
Definition Math_PI : number := Fin (884279719003555 # 281474976710656).

End JS.

Import JS.

Declare Scope js_scope.
Delimit Scope js_scope with js.
Bind Scope js_scope with number.
Infix "+" := add : js_scope.
Infix "-" := sub : js_scope.
Infix "*" := mul : js_scope.
Infix "/" := div : js_scope.
Infix "<?" := lt : js_scope.
Infix "<=?" := le : js_scope.
Infix ">=?" := ge (at level 70) : js_scope.
Infix "===" := eqv (at level 70) : js_scope.
Arguments Fin q%_Q.

Module Number.
(** [a === b] on numbers, as a test: NaN differs from itself. *)
Definition strict_eq (a b : number) : bool :=
  match a, b with
  | Fin x, Fin y => Qeq_bool x y
  | PInf, PInf | NInf, NInf => true
  | _, _ => false
  end.
End Number.

(* ================================================================== *)
(** ** The host: DOM elements, window, pointer events *)

Record DOMRect := {
  top : number;
  left : number;
  width : number;
  height : number
}.

Record Element := {
  offsetWidth : number;
  offsetHeight : number;
  offsetTop : number;
  getBoundingClientRect : DOMRect
}.

(** What [document.getElementById] answers for the two ids the code asks. *)
Record Document := {
  category_cards_container : option Element;
  categories_section : option Element
}.

Record Window := {
  innerWidth : number;
  scrollY : number;
  pageYOffset : number
}.

Record MouseEvent := {
  clientX : number;
  clientY : number
}.

(** The [detail] of the [categoryCardClick] event given to
    [document.dispatchEvent]. *)
Record CustomEvent := {
  category : string;
  detail_index : nat
}.

(* ================================================================== *)
(** ** Scene objects *)

Module Vector2.
Record t := { x : number; y : number }.
End Vector2.

Module Vector3.
Record t := { x : number; y : number; z : number }.
End Vector3.

Record UserData := {
  index : nat;
  categoryName : string;
  targetX : number;
  initialX : number;
  initialRotation : number;
  targetRotation : number;
  layer : number;
  progress : number;
  baseScale : number;
  hoverScale : number;
  baseZ : number;
  hoverZ : number
}.

Record Mesh := {
  position : Vector3.t;
  rotation : Vector3.t;
  scale : Vector3.t;
  userData : UserData
}.

Record Camera := { aspect : number }.

Inductive Cursor := cursor_default | cursor_pointer.

(** The renderer with the part of its canvas the code touches:
    [domElement.style.cursor] and the size given to [setSize]. *)
Record Renderer := {
  cursor : Cursor;
  size : number * number
}.

(* ================================================================== *)
(** ** The [CategoryCards] instance

    [container], [scene] and [raycaster] are only ever tested for null, so
    they are kept as booleans (true: non-null). *)

Record CategoryCards := {
  cards : list Mesh;
  container : bool;
  camera : option Camera;
  scene : bool;
  renderer : option Renderer;
  sectionTop : number;
  sectionBottom : number;
  scrollProgress : number;
  ANIMATION_SCROLL_DISTANCE : number;
  STICKY_BUFFER : number;
  stickyStartScroll : option number;
  raycaster : bool;
  mouse : Vector2.t;
  hoveredCard : option nat;
  interactionsEnabled : bool;
  mouseIsOver : bool
}.

Section Setters.
Variable s : CategoryCards.

Definition set_cards v := {|
  cards := v; container := container s; camera := camera s; scene := scene s;
  renderer := renderer s; sectionTop := sectionTop s;
  sectionBottom := sectionBottom s; scrollProgress := scrollProgress s;
  ANIMATION_SCROLL_DISTANCE := ANIMATION_SCROLL_DISTANCE s;
  STICKY_BUFFER := STICKY_BUFFER s; stickyStartScroll := stickyStartScroll s;
  raycaster := raycaster s; mouse := mouse s; hoveredCard := hoveredCard s;
  interactionsEnabled := interactionsEnabled s; mouseIsOver := mouseIsOver s |}.

Definition set_camera v := {|
  cards := cards s; container := container s; camera := v; scene := scene s;
  renderer := renderer s; sectionTop := sectionTop s;
  sectionBottom := sectionBottom s; scrollProgress := scrollProgress s;
  ANIMATION_SCROLL_DISTANCE := ANIMATION_SCROLL_DISTANCE s;
  STICKY_BUFFER := STICKY_BUFFER s; stickyStartScroll := stickyStartScroll s;
  raycaster := raycaster s; mouse := mouse s; hoveredCard := hoveredCard s;
  interactionsEnabled := interactionsEnabled s; mouseIsOver := mouseIsOver s |}.

Definition set_renderer v := {|
  cards := cards s; container := container s; camera := camera s;
  scene := scene s; renderer := v; sectionTop := sectionTop s;
  sectionBottom := sectionBottom s; scrollProgress := scrollProgress s;
  ANIMATION_SCROLL_DISTANCE := ANIMATION_SCROLL_DISTANCE s;
  STICKY_BUFFER := STICKY_BUFFER s; stickyStartScroll := stickyStartScroll s;
  raycaster := raycaster s; mouse := mouse s; hoveredCard := hoveredCard s;
  interactionsEnabled := interactionsEnabled s; mouseIsOver := mouseIsOver s |}.

Definition set_section v w := {|
  cards := cards s; container := container s; camera := camera s;
  scene := scene s; renderer := renderer s; sectionTop := v;
  sectionBottom := w; scrollProgress := scrollProgress s;
  ANIMATION_SCROLL_DISTANCE := ANIMATION_SCROLL_DISTANCE s;
  STICKY_BUFFER := STICKY_BUFFER s; stickyStartScroll := stickyStartScroll s;
  raycaster := raycaster s; mouse := mouse s; hoveredCard := hoveredCard s;
  interactionsEnabled := interactionsEnabled s; mouseIsOver := mouseIsOver s |}.

Definition set_scrollProgress v := {|
  cards := cards s; container := container s; camera := camera s;
  scene := scene s; renderer := renderer s; sectionTop := sectionTop s;
  sectionBottom := sectionBottom s; scrollProgress := v;
  ANIMATION_SCROLL_DISTANCE := ANIMATION_SCROLL_DISTANCE s;
  STICKY_BUFFER := STICKY_BUFFER s; stickyStartScroll := stickyStartScroll s;
  raycaster := raycaster s; mouse := mouse s; hoveredCard := hoveredCard s;
  interactionsEnabled := interactionsEnabled s; mouseIsOver := mouseIsOver s |}.

Definition set_ANIMATION_SCROLL_DISTANCE v := {|
  cards := cards s; container := container s; camera := camera s;
  scene := scene s; renderer := renderer s; sectionTop := sectionTop s;
  sectionBottom := sectionBottom s; scrollProgress := scrollProgress s;
  ANIMATION_SCROLL_DISTANCE := v;
  STICKY_BUFFER := STICKY_BUFFER s; stickyStartScroll := stickyStartScroll s;
  raycaster := raycaster s; mouse := mouse s; hoveredCard := hoveredCard s;
  interactionsEnabled := interactionsEnabled s; mouseIsOver := mouseIsOver s |}.

Definition set_stickyStartScroll v := {|
  cards := cards s; container := container s; camera := camera s;
  scene := scene s; renderer := renderer s; sectionTop := sectionTop s;
  sectionBottom := sectionBottom s; scrollProgress := scrollProgress s;
  ANIMATION_SCROLL_DISTANCE := ANIMATION_SCROLL_DISTANCE s;
  STICKY_BUFFER := STICKY_BUFFER s; stickyStartScroll := v;
  raycaster := raycaster s; mouse := mouse s; hoveredCard := hoveredCard s;
  interactionsEnabled := interactionsEnabled s; mouseIsOver := mouseIsOver s |}.

Definition set_mouse v := {|
  cards := cards s; container := container s; camera := camera s;
  scene := scene s; renderer := renderer s; sectionTop := sectionTop s;
  sectionBottom := sectionBottom s; scrollProgress := scrollProgress s;
  ANIMATION_SCROLL_DISTANCE := ANIMATION_SCROLL_DISTANCE s;
  STICKY_BUFFER := STICKY_BUFFER s; stickyStartScroll := stickyStartScroll s;
  raycaster := raycaster s; mouse := v; hoveredCard := hoveredCard s;
  interactionsEnabled := interactionsEnabled s; mouseIsOver := mouseIsOver s |}.

Definition set_hoveredCard v := {|
  cards := cards s; container := container s; camera := camera s;
  scene := scene s; renderer := renderer s; sectionTop := sectionTop s;
  sectionBottom := sectionBottom s; scrollProgress := scrollProgress s;
  ANIMATION_SCROLL_DISTANCE := ANIMATION_SCROLL_DISTANCE s;
  STICKY_BUFFER := STICKY_BUFFER s; stickyStartScroll := stickyStartScroll s;
  raycaster := raycaster s; mouse := mouse s; hoveredCard := v;
  interactionsEnabled := interactionsEnabled s; mouseIsOver := mouseIsOver s |}.

Definition set_interactionsEnabled v := {|
  cards := cards s; container := container s; camera := camera s;
  scene := scene s; renderer := renderer s; sectionTop := sectionTop s;
  sectionBottom := sectionBottom s; scrollProgress := scrollProgress s;
  ANIMATION_SCROLL_DISTANCE := ANIMATION_SCROLL_DISTANCE s;
  STICKY_BUFFER := STICKY_BUFFER s; stickyStartScroll := stickyStartScroll s;
  raycaster := raycaster s; mouse := mouse s; hoveredCard := hoveredCard s;
  interactionsEnabled := v; mouseIsOver := mouseIsOver s |}.

Definition set_mouseIsOver v := {|
  cards := cards s; container := container s; camera := camera s;
  scene := scene s; renderer := renderer s; sectionTop := sectionTop s;
  sectionBottom := sectionBottom s; scrollProgress := scrollProgress s;
  ANIMATION_SCROLL_DISTANCE := ANIMATION_SCROLL_DISTANCE s;
  STICKY_BUFFER := STICKY_BUFFER s; stickyStartScroll := stickyStartScroll s;
  raycaster := raycaster s; mouse := mouse s; hoveredCard := hoveredCard s;
  interactionsEnabled := interactionsEnabled s; mouseIsOver := v |}.

(** [if (this.renderer && this.renderer.domElement)
       this.renderer.domElement.style.cursor = c]. *)
Definition set_cursor (c : Cursor) :=
  match renderer s with
  | Some r => set_renderer (Some {| cursor := c; size := size r |})
  | None => s
  end.

End Setters.

(* ================================================================== *)
(** ** The methods of [CategoryCards] *)

Local Open Scope js_scope.

(** [array.forEach((item, i) => ...)] that rebuilds every item. *)
Fixpoint mapi_from {A B : Type} (f : nat -> A -> B) (i : nat) (l : list A)
  : list B :=
  match l with
  | [] => []
  | a :: l' => f i a :: mapi_from f (S i) l'
  end.

Definition mapi {A B : Type} (f : nat -> A -> B) (l : list A) : list B :=
  mapi_from f 0 l.

Definition is_null {A : Type} (o : option A) : bool :=
  match o with Some _ => false | None => true end.

(** [this.hoveredCard === card], [card] being the mesh at position [ref]. *)
Definition same_mesh (h : option nat) (ref : nat) : bool :=
  match h with Some i => Nat.eqb i ref | None => false end.

Definition constructor : CategoryCards := {|
  cards := [];
  container := false;
  camera := None;
  scene := false;
  renderer := None;
  sectionTop := Fin 0;
  sectionBottom := Fin 0;
  scrollProgress := Fin 0;
  ANIMATION_SCROLL_DISTANCE := Fin 3200;
  STICKY_BUFFER := Fin 0;
  stickyStartScroll := None;
  raycaster := false;
  mouse := {| Vector2.x := Fin (-999); Vector2.y := Fin (-999) |};
  hoveredCard := None;
  interactionsEnabled := false;
  mouseIsOver := false
|}.

Definition updateSectionDimensions (doc : Document) (s : CategoryCards)
  : CategoryCards :=
  match categories_section doc with
  | Some categoriesSection =>
      let sectionTop' := offsetTop categoriesSection in
      set_section s sectionTop' (sectionTop' + offsetHeight categoriesSection)
  | None => s
  end.

Definition init (doc : Document) (s : CategoryCards) : CategoryCards :=
  match category_cards_container doc with
  | None => s
  | Some el =>
      let width := offsetWidth el in
      let height := offsetHeight el in
      updateSectionDimensions doc {|
        cards := cards s;
        container := true;
        camera := Some {| aspect := width / height |};
        scene := true;
        renderer := Some {| cursor := cursor_default; size := (width, height) |};
        sectionTop := sectionTop s;
        sectionBottom := sectionBottom s;
        scrollProgress := scrollProgress s;
        ANIMATION_SCROLL_DISTANCE := ANIMATION_SCROLL_DISTANCE s;
        STICKY_BUFFER := STICKY_BUFFER s;
        stickyStartScroll := stickyStartScroll s;
        raycaster := true;
        mouse := mouse s;
        hoveredCard := hoveredCard s;
        interactionsEnabled := interactionsEnabled s;
        mouseIsOver := mouseIsOver s |}
  end.

(** The easing arrow function of [applyScrollAnimation]. *)
Definition easeInOutCubic (t : number) : number :=
  if t <? Fin 0.5
  then Fin 4 * t * t * t
  else Fin 1 - Math_pow (Fin (-2) * t + Fin 2) 3 / Fin 2.

Definition flipProgress (scrollProgress : number) : number :=
  Math_min (Fin 1) (scrollProgress / Fin 0.4).

Definition spreadProgress (scrollProgress : number) : number :=
  Math_max (Fin 0) ((scrollProgress - Fin 0.4) / Fin 0.6).

(** The update [v += (target - v) * 0.15] of [hoverScale] and [hoverZ]. *)
Definition smooth (current target : number) : number :=
  current + (target - current) * Fin 0.15.

(** The body of [this.cards.forEach((card) => ...)]. *)
Definition animateCard (enabled : bool) (hovered : option nat)
    (easedFlip easedSpread : number) (ref : nat) (card : Mesh) : Mesh :=
  let ud := userData card in
  let rotation_y := initialRotation ud * (Fin 1 - easedFlip) in
  let baseX := initialX ud + (targetX ud - initialX ud) * easedSpread in
  let isHovered := enabled && same_mesh hovered ref in
  let targetHoverScale := if isHovered then Fin 1.1 else Fin 1 in
  let targetHoverZ := if isHovered then Fin 1.5 else Fin 0 in
  let hoverScale' := smooth (hoverScale ud) targetHoverScale in
  let hoverZ' := smooth (hoverZ ud) targetHoverZ in
  {| position := {| Vector3.x := baseX;
                    Vector3.y := Vector3.y (position card);
                    Vector3.z := baseZ ud + hoverZ' |};
     rotation := {| Vector3.x := Vector3.x (rotation card);
                    Vector3.y := rotation_y;
                    Vector3.z := Vector3.z (rotation card) |};
     scale := {| Vector3.x := hoverScale';
                 Vector3.y := hoverScale';
                 Vector3.z := hoverScale' |};
     userData := {|
       index := index ud;
       categoryName := categoryName ud;
       targetX := targetX ud;
       initialX := initialX ud;
       initialRotation := initialRotation ud;
       targetRotation := targetRotation ud;
       layer := layer ud;
       progress := progress ud;
       baseScale := baseScale ud;
       hoverScale := hoverScale';
       baseZ := baseZ ud;
       hoverZ := hoverZ' |} |}.

Definition applyScrollAnimation (s : CategoryCards) : CategoryCards :=
  if Nat.eqb (List.length (cards s)) 0 then s else
  let flipProgress := flipProgress (scrollProgress s) in
  let spreadProgress := spreadProgress (scrollProgress s) in
  let easedFlip := easeInOutCubic flipProgress in
  let easedSpread := easeInOutCubic spreadProgress in
  let wasEnabled := interactionsEnabled s in
  let s := set_interactionsEnabled s (flipProgress >=? Fin 1) in
  let s :=
    if wasEnabled && negb (interactionsEnabled s)
    then set_cursor (set_hoveredCard s None) cursor_default
    else s in
  set_cards s
    (mapi (animateCard (interactionsEnabled s) (hoveredCard s)
             easedFlip easedSpread)
          (cards s)).

Definition onMouseMove (event : MouseEvent) (canvas : DOMRect)
    (s : CategoryCards) : CategoryCards :=
  if negb (container s) || is_null (renderer s) then s else
  let s := set_mouseIsOver s true in
  let rect := canvas in
  set_mouse s {|
    Vector2.x := ((clientX event - left rect) / width rect) * Fin 2 - Fin 1;
    Vector2.y :=
      neg ((clientY event - top rect) / height rect) * Fin 2 + Fin 1 |}.

Definition onMouseLeave (s : CategoryCards) : CategoryCards :=
  let s := set_mouseIsOver s false in
  let s := set_mouse s {| Vector2.x := Fin (-999); Vector2.y := Fin (-999) |} in
  if negb (is_null (hoveredCard s))
  then set_cursor (set_hoveredCard s None) cursor_default
  else s.

(** [onClick] changes no field; it answers the events it dispatched.  A
    reference always designates a mesh of [cards]; the last branch is the
    dangling reference that cannot exist in JavaScript. *)
Definition onClick (s : CategoryCards) : CategoryCards * list CustomEvent :=
  if negb (interactionsEnabled s) || is_null (renderer s)
     || is_null (camera s)
  then (s, [])
  else
    match hoveredCard s with
    | Some ref =>
        match nth_error (cards s) ref with
        | Some card =>
            let categoryName := categoryName (userData card) in
            (s, [ {| category := categoryName;
                     detail_index := index (userData card) |} ])
        | None => (s, [])
        end
    | None => (s, [])
    end.

Section Driver.

(** [Math.tan], which no rational function gives. *)
Variable Math_tan : number -> number.

(** The ray caster: [raycaster.setFromCamera(mouse, camera)] followed by
    [raycaster.intersectObjects(objects, false)], answering the positions
    of the meshes hit, nearest first. *)
Variable intersect : Vector2.t -> Camera -> list Mesh -> list nat.

(** Only the objects handed to the ray caster can be hit. *)
Definition intersectObjects (mouse : Vector2.t) (camera : Camera)
    (objects : list Mesh) : list nat :=
  filter (fun ref => Nat.ltb ref (List.length objects))
         (intersect mouse camera objects).

Definition calculateVisibleWidth (cameraZ fov aspect : number) : number :=
  let vFOV := fov * Math_PI / Fin 180 in
  let visibleHeight := Fin 2 * Math_tan (vFOV / Fin 2) * cameraZ in
  let visibleWidth := visibleHeight * aspect in
  visibleWidth.

Definition categories : list string :=
  ["Baseball"; "Basketball"; "Hockey"; "Golf"; "Football"]%string.

Definition of_nat (n : nat) : number := Fin (inject_Z (Z.of_nat n)).

(** [el] is the element [this.container] refers to when it is non-null. *)
Definition createCards (el : Element) (win : Window) (s : CategoryCards)
  : CategoryCards :=
  let containerWidth := if container s then offsetWidth el else innerWidth win in
  let containerHeight := if container s then offsetHeight el else Fin 500 in
  let aspect := containerWidth / containerHeight in
  let visibleWidth := calculateVisibleWidth (Fin 20) (Fin 45) aspect in
  let baseCardWidth := Fin 1.5 in
  let baseSpacingRatio := Fin 0.2 in
  let totalUnitsNeeded :=
    baseCardWidth * (Fin 4 * (Fin 1 + baseSpacingRatio) + Fin 1) in
  let CARD_SCALE :=
    Math_min (Fin 5) ((visibleWidth * Fin 0.85) / totalUnitsNeeded) in
  let spacing := baseCardWidth * CARD_SCALE * (Fin 1 + baseSpacingRatio) in
  let centerOffset := (of_nat (List.length categories) - Fin 1) / Fin 2 in
  let mesh (i : nat) (name : string) : Mesh := {|
    position := {| Vector3.x := of_nat i * Fin 0.25;
                   Vector3.y := Fin 0;
                   Vector3.z := of_nat i * Fin 0.5 |};
    rotation := {| Vector3.x := Fin 0;
                   Vector3.y := Math_PI;
                   Vector3.z := Fin 0 |};
    scale := {| Vector3.x := Fin 1; Vector3.y := Fin 1; Vector3.z := Fin 1 |};
    userData := {|
      index := i;
      categoryName := name;
      targetX := (of_nat i - centerOffset) * spacing;
      initialX := Fin 0;
      initialRotation := Math_PI;
      targetRotation := Fin 0;
      layer := Fin 0;
      progress := Fin 0;
      baseScale := Fin 1;
      hoverScale := Fin 1;
      baseZ := of_nat i * Fin 0.5;
      hoverZ := Fin 0 |} |} in
  set_cards s (cards s ++ mapi mesh categories).

Definition checkIntersections (s : CategoryCards) : CategoryCards :=
  if negb (interactionsEnabled s) then
    if negb (is_null (hoveredCard s))
    then set_cursor (set_hoveredCard (set_hoveredCard s None) None)
                    cursor_default
    else s
  else if negb (mouseIsOver s) then s
  else
    match camera s with
    | None => s
    | Some cam =>
        if negb (raycaster s) || Nat.eqb (List.length (cards s)) 0 then s
        else
          let intersects := intersectObjects (mouse s) cam (cards s) in
          match intersects with
          | newHovered :: _ =>
              if negb (same_mesh (hoveredCard s) newHovered)
              then set_cursor (set_hoveredCard s (Some newHovered))
                              cursor_pointer
              else s
          | [] =>
              if negb (is_null (hoveredCard s))
              then set_cursor (set_hoveredCard s None) cursor_default
              else s
          end
    end.

Definition animate (doc : Document) (win : Window) (s : CategoryCards)
  : CategoryCards :=
  match categories_section doc with
  | None => s
  | Some categoriesSection =>
      let rect := getBoundingClientRect categoriesSection in
      let currentScroll := or_else (scrollY win) (pageYOffset win) in
      let s :=
        if Number.strict_eq (sectionTop s) (Fin 0)
        then updateSectionDimensions doc s else s in
      let isAtTop := top rect <=? Fin 0 in
      let s :=
        if isAtTop then
          let s :=
            if is_null (stickyStartScroll s)
            then set_stickyStartScroll s (Some currentScroll) else s in
          match stickyStartScroll s with
          | Some start =>
              let scrolledSinceSticky := currentScroll - start in
              set_scrollProgress s
                (Math_min (Fin 1)
                   (scrolledSinceSticky / ANIMATION_SCROLL_DISTANCE s))
          | None => s
          end
        else set_stickyStartScroll (set_scrollProgress s (Fin 0)) None in
      let s := applyScrollAnimation s in
      checkIntersections s
  end.

(** [el] is the element [this.container] refers to when it is non-null. *)
Definition onResize (el : Element) (doc : Document) (s : CategoryCards)
  : CategoryCards :=
  match renderer s, camera s with
  | Some r, Some _ =>
      if negb (container s) then s else
      let catWidth := offsetWidth el in
      let catHeight := offsetHeight el in
      let s := set_camera s (Some {| aspect := catWidth / catHeight |}) in
      let s := set_renderer s
                 (Some {| cursor := cursor r; size := (catWidth, catHeight) |}) in
      updateSectionDimensions doc s
  | _, _ => s
  end.

(** *** The page: [three-setup.js]

    [init()] of the page constructs the manager, calls its [init] and
    [createCards], and only then starts the frame loop; the canvas
    listeners deliver pointer events between frames. *)

Definition boot (doc : Document) (win : Window) : CategoryCards :=
  let el := match category_cards_container doc with
            | Some el => el
            | None => {| offsetWidth := Fin 0; offsetHeight := Fin 0;
                         offsetTop := Fin 0;
                         getBoundingClientRect :=
                           {| top := Fin 0; left := Fin 0;
                              width := Fin 0; height := Fin 0 |} |}
            end in
  createCards el win (init doc constructor).

Inductive Event :=
| Frame (doc : Document) (win : Window)
| MouseMove (event : MouseEvent) (canvas : DOMRect)
| MouseLeave
| Click
| Resize (el : Element) (doc : Document).

Definition handle (s : CategoryCards) (e : Event) : CategoryCards :=
  match e with
  | Frame doc win => animate doc win s
  | MouseMove event canvas => onMouseMove event canvas s
  | MouseLeave => onMouseLeave s
  | Click => fst (onClick s)
  | Resize el doc => onResize el doc s
  end.

Definition dispatched (s : CategoryCards) (e : Event) : list CustomEvent :=
  match e with
  | Click => snd (onClick s)
  | _ => []
  end.

Definition run (events : list Event) (s : CategoryCards) : CategoryCards :=
  fold_left handle events s.

(** The states the page can be in. *)
Inductive reachable : CategoryCards -> Prop :=
| reach_boot doc win : reachable (boot doc win)
| reach_step s e : reachable s -> reachable (handle s e).

End Driver.

(** *** Hover smoothing over several frames

    The value of a smoothed field after [n] frames during which its target
    does not change, and its distance to that target. *)

Fixpoint hover_after (n : nat) (current target : number) : number :=
  match n with
  | O => current
  | S k => smooth (hover_after k current target) target
  end.

Definition hover_error (n : nat) (current target : number) : number :=
  Math_abs (hover_after n current target - target).

Fixpoint qpow (r : Q) (n : nat) : Q :=
  match n with
  | O => 1
  | S k => r * qpow r k
  end.

(** *** Predicates of the statements *)

Definition between (lo : Q) (a : number) (hi : Q) : Prop :=
  (Fin lo <=? a) = true /\ (a <=? Fin hi) = true.

Definition in01 (a : number) : Prop := between 0 a 1.

(** A card whose layout abscissas are numbers (not NaN, not infinite). *)
Definition layout_finite (card : Mesh) : Prop :=
  finite (targetX (userData card)) /\ finite (initialX (userData card)).

(** The hover state of a card and the scale committed to its mesh are
    within the rest value and the hover maximum. *)
Definition hover_in_range (card : Mesh) : Prop :=
  between 1 (hoverScale (userData card)) 1.1 /\
  between 0 (hoverZ (userData card)) 1.5 /\
  between 1 (Vector3.x (scale card)) 1.1 /\
  between 1 (Vector3.y (scale card)) 1.1 /\
  between 1 (Vector3.z (scale card)) 1.1.

(** The anchor a pinned frame works with: the recorded one, or the current
    scroll offset when none is recorded yet. *)
Definition sticky_anchor (s : CategoryCards) (currentScroll : number) : number :=
  match stickyStartScroll s with
  | Some start => start
  | None => currentScroll
  end.

(** The sentinel [mouse.set(-999, -999)]. *)
Definition off_screen : Vector2.t :=
  {| Vector2.x := Fin (-999); Vector2.y := Fin (-999) |}.

(** What holds of the instance whenever the page is idle between two
    events. *)
Record Inv (s : CategoryCards) : Prop := {
  inv_cards : List.length (cards s) = 5%nat;
  inv_enabled : interactionsEnabled s = false -> hoveredCard s = None;
  inv_over : mouseIsOver s = false ->
             hoveredCard s = None /\ mouse s = off_screen;
  inv_ref : forall ref, hoveredCard s = Some ref ->
            (ref < List.length (cards s))%nat;
  inv_distance : ANIMATION_SCROLL_DISTANCE s = Fin 3200;
  inv_hover : Forall hover_in_range (cards s)
}.

(** *** A sample page, to run the definitions on *)

Module Sample.

Definition tan (a : number) : number := Fin 0.4142.

(** A ray that always pierces the third card first, then the second. *)
Definition ray (m : Vector2.t) (c : Camera) (l : list Mesh) : list nat :=
  [2; 1]%nat.

Definition section_el (rect_top : Q) : Element := {|
  offsetWidth := Fin 1200;
  offsetHeight := Fin 4000;
  offsetTop := Fin 900;
  getBoundingClientRect :=
    {| top := Fin rect_top; left := Fin 0;
       width := Fin 1200; height := Fin 4000 |} |}.

Definition container_el : Element := {|
  offsetWidth := Fin 1200;
  offsetHeight := Fin 600;
  offsetTop := Fin 0;
  getBoundingClientRect :=
    {| top := Fin 0; left := Fin 0; width := Fin 1200; height := Fin 600 |} |}.

(** The page with the section's top edge at [rect_top]. *)
Definition doc (rect_top : Q) : Document := {|
  category_cards_container := Some container_el;
  categories_section := Some (section_el rect_top) |}.

(** The window scrolled to [y]. *)
Definition win (y : Q) : Window := {|
  innerWidth := Fin 1200;
  scrollY := Fin y;
  pageYOffset := Fin y |}.

Definition booted : CategoryCards := boot tan (doc 300) (win 0).

Definition pointer : MouseEvent := {| clientX := Fin 600; clientY := Fin 300 |}.

(** Scroll far enough for the flip to complete, move the pointer over the
    canvas and let one more frame pick the card under it. *)
Definition hover_events : list Event :=
  [ Frame (doc 0) (win 1000);
    Frame (doc 0) (win 2600);
    MouseMove pointer (getBoundingClientRect container_el);
    Frame (doc 0) (win 2600) ].

Definition hovering : CategoryCards := run ray hover_events booted.

End Sample.

(** *** Predicates of the statements about the whole page *)

(** What no handler writes in a mesh: the identity and layout fields of
    [userData], [position.y], [rotation.x] and [rotation.z]. *)
Definition same_static (card card' : Mesh) : Prop :=
  index (userData card') = index (userData card) /\
  categoryName (userData card') = categoryName (userData card) /\
  targetX (userData card') = targetX (userData card) /\
  initialX (userData card') = initialX (userData card) /\
  initialRotation (userData card') = initialRotation (userData card) /\
  targetRotation (userData card') = targetRotation (userData card) /\
  layer (userData card') = layer (userData card) /\
  progress (userData card') = progress (userData card) /\
  baseScale (userData card') = baseScale (userData card) /\
  baseZ (userData card') = baseZ (userData card) /\
  Vector3.y (position card') = Vector3.y (position card) /\
  Vector3.x (rotation card') = Vector3.x (rotation card) /\
  Vector3.z (rotation card') = Vector3.z (rotation card).

(** [CARD_SCALE] of [createCards], as a function of the visible width. *)
Definition CARD_SCALE_of (visibleWidth : number) : number :=
  Math_min (Fin 5)
    ((visibleWidth * Fin 0.85)
     / (Fin 1.5 * (Fin 4 * (Fin 1 + Fin 0.2) + Fin 1)))%js.

(** The cursor shown over the canvas tells whether a card is hovered. *)
Definition cursor_mirrors_hover (s : CategoryCards) : Prop :=
  forall r, renderer s = Some r ->
    (hoveredCard s = None -> cursor r = cursor_default) /\
    (hoveredCard s <> None -> cursor r = cursor_pointer).

(** A pointer known to be over the canvas, or a hovered card, presupposes
    the canvas: the renderer for the first, the camera for the second. *)
Definition hover_needs_canvas (s : CategoryCards) : Prop :=
  (mouseIsOver s = true -> renderer s <> None) /\
  (hoveredCard s <> None -> camera s <> None).

(** The events a click on the page dispatches, read off the hover. *)
Definition click_events (s : CategoryCards) : list CustomEvent :=
  match hoveredCard s with
  | Some ref =>
      match nth_error categories ref with
      | Some name => [ {| category := name; detail_index := ref |} ]
      | None => []
      end
  | None => []
  end.

(** The instance when the page has no [category-cards-container]. *)
Definition no_canvas (s : CategoryCards) : Prop :=
  container s = false /\ renderer s = None /\ camera s = None /\
  hoveredCard s = None.

(** *** The earlier variant of the class

    The repository keeps an earlier [CategoryCards.js] beside the later
    one.  Its [checkIntersections] clears the hover in one test for
    "interactions disabled or pointer outside". *)

Module Earlier.
Section Earlier.

Variable intersect : Vector2.t -> Camera -> list Mesh -> list nat.

Definition checkIntersections (s : CategoryCards) : CategoryCards :=
  if negb (interactionsEnabled s) || negb (mouseIsOver s) then
    if negb (is_null (hoveredCard s))
    then set_cursor (set_hoveredCard s None) cursor_default
    else s
  else
    match camera s with
    | None => s
    | Some cam =>
        if negb (raycaster s) || Nat.eqb (List.length (cards s)) 0 then s
        else
          let intersects := intersectObjects intersect (mouse s) cam (cards s) in
          match intersects with
          | newHovered :: _ =>
              if negb (same_mesh (hoveredCard s) newHovered)
              then set_cursor (set_hoveredCard s (Some newHovered))
                              cursor_pointer
              else s
          | [] =>
              if negb (is_null (hoveredCard s))
              then set_cursor (set_hoveredCard s None) cursor_default
              else s
          end
    end.

Variable Math_tan : number -> number.

(** The earlier [createCards]: a wider gap, a 10% margin, and the targets
    counted from the leftmost one. *)
Definition createCards (el : Element) (win : Window) (s : CategoryCards)
  : CategoryCards :=
  let containerWidth := if container s then offsetWidth el else innerWidth win in
  let containerHeight := if container s then offsetHeight el else Fin 500 in
  let aspect := containerWidth / containerHeight in
  let visibleWidth := calculateVisibleWidth Math_tan (Fin 20) (Fin 45) aspect in
  let baseCardWidth := Fin 1.5 in
  let baseSpacingRatio := Fin 0.3 in
  let totalUnitsNeeded := Fin 5 + (Fin 4 * baseSpacingRatio) in
  let CARD_SCALE :=
    Math_min (Fin 5)
      ((visibleWidth * Fin 0.9) / (baseCardWidth * totalUnitsNeeded)) in
  let spacing := baseCardWidth * CARD_SCALE * (Fin 1 + baseSpacingRatio) in
  let startX :=
    neg (of_nat (List.length categories) - Fin 1) * spacing / Fin 2 in
  let mesh (i : nat) (name : string) : Mesh := {|
    position := {| Vector3.x := of_nat i * Fin 0.25;
                   Vector3.y := Fin 0;
                   Vector3.z := of_nat i * Fin 0.5 |};
    rotation := {| Vector3.x := Fin 0;
                   Vector3.y := Math_PI;
                   Vector3.z := Fin 0 |};
    scale := {| Vector3.x := Fin 1; Vector3.y := Fin 1; Vector3.z := Fin 1 |};
    userData := {|
      index := i;
      categoryName := name;
      targetX := startX + of_nat i * spacing;
      initialX := Fin 0;
      initialRotation := Math_PI;
      targetRotation := Fin 0;
      layer := Fin 0;
      progress := Fin 0;
      baseScale := Fin 1;
      hoverScale := Fin 1;
      baseZ := of_nat i * Fin 0.5;
      hoverZ := Fin 0 |} |} in
  set_cards s (cards s ++ mapi mesh categories).

(** Its [CARD_SCALE], as a function of the visible width. *)
Definition CARD_SCALE_of (visibleWidth : number) : number :=
  Math_min (Fin 5)
    ((visibleWidth * Fin 0.9) / (Fin 1.5 * (Fin 5 + (Fin 4 * Fin 0.3)))).

End Earlier.
End Earlier.

(** The width [1.5 * CARD_SCALE] that [createCards] gives to the box
    geometry of every card. *)
Definition card_width_of (visibleWidth : number) : number :=
  (Fin 1.5 * CARD_SCALE_of visibleWidth)%js.

(** The aspect ratio [createCards] computes: the container's when there is
    one, the window's width over 500 otherwise. *)
Definition aspect_of (el : Element) (win : Window) (s : CategoryCards)
  : number :=
  ((if container s then offsetWidth el else innerWidth win)
   / (if container s then offsetHeight el else Fin 500))%js.

(** *** A sample page without the canvas container *)

Module Bare.

Definition doc (rect_top : Q) : Document := {|
  category_cards_container := None;
  categories_section := Some (Sample.section_el rect_top) |}.

(** The same gestures as [Sample.hover_events], on the bare page. *)
Definition events : list Event :=
  [ Frame (doc 0) (Sample.win 1000);
    Frame (doc 0) (Sample.win 2600);
    MouseMove Sample.pointer (getBoundingClientRect Sample.container_el);
    Frame (doc 0) (Sample.win 2600);
    Click ].

End Bare.

(** Names of the category manager's methods that the page script's own
    functions of the same name would hide. *)
Definition CategoryCards_animate := animate.
Definition CategoryCards_onMouseMove := onMouseMove.

(* ================================================================== *)
(** ** The background cards: [RegularCards.js] *)

Module RegularCards.

Record Card := {
  position : Vector3.t;
  rotation : Vector3.t;
  rotationSpeed : number
}.

Definition cardImages : list string :=
  [ "/onlygoats-draft/assets/Gretzky OPC front.jpg";
    "/onlygoats-draft/assets/Henderson Topps front.jpg";
    "/onlygoats-draft/assets/Jordan Fleer front.jpg";
    "/onlygoats-draft/assets/Jordan Star front.jpg";
    "/onlygoats-draft/assets/Kiss Comic Front.jpg";
    "/onlygoats-draft/assets/Tiger Woods Front.jpg";
    "/onlygoats-draft/assets/Trout Bowman Auto front.jpg" ]%string.

(** [random i] is what [Math.random()] answers for the [i]-th card. *)
Definition createCards (random : nat -> number) (cards : list Card)
  : list Card :=
  cards ++
  mapi (fun (i : nat) (imgPath : string) =>
          {| position := {| Vector3.x := of_nat i * Fin 2.5 - Fin 7.5;
                            Vector3.y := Fin 0;
                            Vector3.z := Fin 0 |};
             rotation := {| Vector3.x := Fin 0;
                            Vector3.y := Fin 0;
                            Vector3.z := Fin 0 |};
             rotationSpeed := random i * Fin 0.005 + Fin 0.002 |})
       cardImages.

Section Orbit.

Variable Math_cos : number -> number.
Variable Math_sin : number -> number.

Definition animate (timer scrollProgress animationSpeed : number)
    (cards : list Card) : list Card :=
  let baseRadiusX := Fin 5 in
  let baseRadiusY := Fin 4 in
  let radiusX := baseRadiusX + scrollProgress * Fin 2 in
  let radiusY := baseRadiusY + scrollProgress * Fin 1.5 in
  mapi (fun (i : nat) (card : Card) =>
          {| position :=
               {| Vector3.x := radiusX * Math_cos (timer * Fin 0.01 + of_nat i);
                  Vector3.y :=
                    radiusY * Math_sin (timer * Fin 0.01 + of_nat i * Fin 1.1);
                  Vector3.z := Fin 0 |};
             rotation :=
               {| Vector3.x :=
                    Vector3.x (rotation card) + rotationSpeed card * Fin 0.1;
                  Vector3.y :=
                    Vector3.y (rotation card) + rotationSpeed card * Fin 0.7;
                  Vector3.z := Math_sin (timer + of_nat i) * Fin 0.2 |};
             rotationSpeed := rotationSpeed card |})
       cards.

(** Successive calls of [animate], one per triple of arguments. *)
Definition frames (args : list (number * number * number))
    (cards : list Card) : list Card :=
  fold_left (fun cs '(timer, scrollProgress, animationSpeed) =>
               animate timer scrollProgress animationSpeed cs)
            args cards.

End Orbit.

(** A card spinning forward: a speed within what [createCards] draws
    from a [Math.random()] in [0, 1), rotations that have not gone
    backwards, and the orbit in the plane [z = 0]. *)
Definition spinning (card : Card) : Prop :=
  exists v rx ry,
    rotationSpeed card = Fin v /\ (0.002 <= v <= 0.007)%Q /\
    Vector3.x (rotation card) = Fin rx /\ (0 <= rx)%Q /\
    Vector3.y (rotation card) = Fin ry /\ (0 <= ry)%Q /\
    Vector3.z (position card) = Fin 0.

(** One frame later: the same speed, and no rotation has decreased. *)
Definition spins_on (card card' : Card) : Prop :=
  rotationSpeed card' = rotationSpeed card /\
  (Vector3.x (rotation card) <=? Vector3.x (rotation card')) = true /\
  (Vector3.y (rotation card) <=? Vector3.y (rotation card')) = true.

End RegularCards.

(* ================================================================== *)
(** ** The page script: [three-setup.js]

    The module-level variables of the script, with the part of the main
    camera the script writes: its position, the point given to [lookAt]
    and its aspect. *)

Module ThreeSetup.

Definition window_scrollY (win : Window) : number := scrollY win.

Record Globals := {
  camera_position : Vector3.t;
  camera_lookAt : Vector3.t;
  camera_aspect : number;
  scrollY : number;
  targetScrollY : number;
  categoryCardsManager : option CategoryCards;
  regularCardsManager : option (list RegularCards.Card);
  mouseX : number;
  mouseY : number;
  targetCameraX : number;
  targetCameraY : number
}.

Definition ANIMATION_SPEED : number := Fin 1.
Definition MOUSE_INFLUENCE : number := Fin 0.1.
Definition MOUSE_SMOOTHING : number := Fin 0.08.
Definition MAX_MOUSE_OFFSET : number := Fin 1.5.

Section Script.

Variable Math_tan : number -> number.
Variable Math_cos : number -> number.
Variable Math_sin : number -> number.
Variable intersect : Vector2.t -> Camera -> list Mesh -> list nat.

(** [init()]; [random] stands for the draws of [Math.random()]. *)
Definition init (random : nat -> number) (doc : Document) (win : Window)
    (innerHeight : number) : Globals := {|
  camera_position :=
    {| Vector3.x := Fin 0; Vector3.y := Fin 0; Vector3.z := Fin 8 |};
  camera_lookAt :=
    {| Vector3.x := Fin 0; Vector3.y := Fin 0; Vector3.z := Fin 0 |};
  camera_aspect := innerWidth win / innerHeight;
  scrollY := Fin 0;
  targetScrollY := Fin 0;
  categoryCardsManager := Some (boot Math_tan doc win);
  regularCardsManager := Some (RegularCards.createCards random []);
  mouseX := Fin 0;
  mouseY := Fin 0;
  targetCameraX := Fin 0;
  targetCameraY := Fin 0
|}.

(** [el] is the element the category manager's [container] refers to. *)
Definition onWindowResize (win : Window) (innerHeight : number)
    (el : Element) (doc : Document) (g : Globals) : Globals := {|
  camera_position := camera_position g;
  camera_lookAt := camera_lookAt g;
  camera_aspect := innerWidth win / innerHeight;
  scrollY := scrollY g;
  targetScrollY := targetScrollY g;
  categoryCardsManager :=
    match categoryCardsManager g with
    | Some m => Some (onResize el doc m)
    | None => None
    end;
  regularCardsManager := regularCardsManager g;
  mouseX := mouseX g;
  mouseY := mouseY g;
  targetCameraX := targetCameraX g;
  targetCameraY := targetCameraY g
|}.

Definition onWindowScroll (win : Window) (g : Globals) : Globals := {|
  camera_position := camera_position g;
  camera_lookAt := camera_lookAt g;
  camera_aspect := camera_aspect g;
  scrollY := scrollY g;
  targetScrollY := window_scrollY win;
  categoryCardsManager := categoryCardsManager g;
  regularCardsManager := regularCardsManager g;
  mouseX := mouseX g;
  mouseY := mouseY g;
  targetCameraX := targetCameraX g;
  targetCameraY := targetCameraY g
|}.

Definition onMouseMove (event : MouseEvent) (win : Window)
    (innerHeight : number) (g : Globals) : Globals := {|
  camera_position := camera_position g;
  camera_lookAt := camera_lookAt g;
  camera_aspect := camera_aspect g;
  scrollY := scrollY g;
  targetScrollY := targetScrollY g;
  categoryCardsManager := categoryCardsManager g;
  regularCardsManager := regularCardsManager g;
  mouseX := neg (clientX event / innerWidth win) * Fin 2;
  mouseY := (clientY event / innerHeight) * Fin 2;
  targetCameraX := targetCameraX g;
  targetCameraY := targetCameraY g
|}.

(** One call of [animate()]; [now] is what [Date.now()] answers, [doc] and
    [win] what the category manager reads during the frame. *)
Definition animate (now : number) (doc : Document) (win : Window)
    (g : Globals) : Globals :=
  let timer := Fin 0.000005 * ANIMATION_SPEED * now in
  let scrollY' := scrollY g + (targetScrollY g - scrollY g) * Fin 0.05 in
  let scrollProgress := scrollY' * Fin 0.0005 in
  let regular :=
    match regularCardsManager g with
    | Some cards =>
        Some (RegularCards.animate Math_cos Math_sin
                timer scrollProgress ANIMATION_SPEED cards)
    | None => None
    end in
  let category :=
    match categoryCardsManager g with
    | Some m => Some (CategoryCards_animate intersect doc win m)
    | None => None
    end in
  let targetCameraX' :=
    targetCameraX g
    + (mouseX g * MOUSE_INFLUENCE - targetCameraX g) * MOUSE_SMOOTHING in
  let targetCameraY' :=
    targetCameraY g
    + (mouseY g * MOUSE_INFLUENCE - targetCameraY g) * MOUSE_SMOOTHING in
  let targetCameraX' :=
    Math_max (neg MAX_MOUSE_OFFSET) (Math_min MAX_MOUSE_OFFSET targetCameraX') in
  let targetCameraY' :=
    Math_max (neg MAX_MOUSE_OFFSET) (Math_min MAX_MOUSE_OFFSET targetCameraY') in
  let scrollCameraY := neg scrollProgress * Fin 3 in
  {| camera_position :=
       {| Vector3.x := targetCameraX';
          Vector3.y := scrollCameraY + targetCameraY';
          Vector3.z := Fin 8 |};
     camera_lookAt :=
       {| Vector3.x := targetCameraX' * Fin 0.5;
          Vector3.y := scrollCameraY + targetCameraY' * Fin 0.5;
          Vector3.z := Fin 0 |};
     camera_aspect := camera_aspect g;
     scrollY := scrollY';
     targetScrollY := targetScrollY g;
     categoryCardsManager := category;
     regularCardsManager := regular;
     mouseX := mouseX g;
     mouseY := mouseY g;
     targetCameraX := targetCameraX';
     targetCameraY := targetCameraY' |}.

(** What the browser delivers to the page: its own listeners, the frame
    callback, and the events of the canvas listeners of the category
    manager. *)
Inductive PageEvent :=
| Scroll (win : Window)
| PointerMove (event : MouseEvent) (win : Window) (innerHeight : number)
| AnimationFrame (now : number) (doc : Document) (win : Window)
| WindowResize (win : Window) (innerHeight : number)
               (el : Element) (doc : Document)
| CanvasMouseMove (event : MouseEvent) (canvas : DOMRect)
| CanvasMouseLeave
| CanvasClick.

Definition on_canvas (f : CategoryCards -> CategoryCards) (g : Globals)
  : Globals := {|
  camera_position := camera_position g;
  camera_lookAt := camera_lookAt g;
  camera_aspect := camera_aspect g;
  scrollY := scrollY g;
  targetScrollY := targetScrollY g;
  categoryCardsManager :=
    match categoryCardsManager g with
    | Some m => Some (f m)
    | None => None
    end;
  regularCardsManager := regularCardsManager g;
  mouseX := mouseX g;
  mouseY := mouseY g;
  targetCameraX := targetCameraX g;
  targetCameraY := targetCameraY g
|}.

Definition deliver (g : Globals) (e : PageEvent) : Globals :=
  match e with
  | Scroll win => onWindowScroll win g
  | PointerMove event win innerHeight => onMouseMove event win innerHeight g
  | AnimationFrame now doc win => animate now doc win g
  | WindowResize win innerHeight el doc =>
      onWindowResize win innerHeight el doc g
  | CanvasMouseMove event canvas =>
      on_canvas (CategoryCards_onMouseMove event canvas) g
  | CanvasMouseLeave => on_canvas onMouseLeave g
  | CanvasClick => on_canvas (fun m => fst (onClick m)) g
  end.

Definition play (events : list PageEvent) (g : Globals) : Globals :=
  fold_left deliver events g.

(** The category manager's own event behind a page event, if any. *)
Definition manager_event (e : PageEvent) : list Event :=
  match e with
  | AnimationFrame now doc win => [Frame doc win]
  | WindowResize win innerHeight el doc => [Resize el doc]
  | CanvasMouseMove event canvas => [MouseMove event canvas]
  | CanvasMouseLeave => [MouseLeave]
  | CanvasClick => [Click]
  | _ => []
  end.

End Script.

(** A pointer event inside a window of positive size. *)
Definition pointer_in_window (e : PageEvent) : Prop :=
  match e with
  | PointerMove event win innerHeight =>
      exists cx cy w h,
        clientX event = Fin cx /\ clientY event = Fin cy /\
        innerWidth win = Fin w /\ innerHeight = Fin h /\
        (0 < w)%Q /\ (0 < h)%Q /\ (0 <= cx <= w)%Q /\ (0 <= cy <= h)%Q
  | _ => True
  end.

Definition is_frame (e : PageEvent) : Prop :=
  match e with AnimationFrame _ _ _ => True | _ => False end.

(** The pointer-driven camera offsets stay in the small box a pointer
    inside the window can ask for. *)
Definition parallax_in_box (g : Globals) : Prop :=
  between (-2) (mouseX g) 0 /\ between 0 (mouseY g) 2 /\
  between (-0.2) (targetCameraX g) 0 /\ between 0 (targetCameraY g) 0.2 /\
  between (-0.2) (Vector3.x (camera_position g)) 0 /\
  Vector3.z (camera_position g) = Fin 8.

End ThreeSetup.

(** *** A sample run of the page script *)

Module PageSample.

Definition random (i : nat) : number := Fin 0.5.
Definition cos (a : number) : number := Fin 0.6.
Definition sin (a : number) : number := Fin 0.8.

Definition globals : ThreeSetup.Globals :=
  ThreeSetup.init Sample.tan random (Sample.doc 300) (Sample.win 0) (Fin 800).

Definition frames : list ThreeSetup.PageEvent :=
  [ ThreeSetup.AnimationFrame (Fin 1000) (Sample.doc 300) (Sample.win 400);
    ThreeSetup.AnimationFrame (Fin 1016) (Sample.doc 300) (Sample.win 400) ].

Definition events : list ThreeSetup.PageEvent :=
  [ ThreeSetup.Scroll (Sample.win 400);
    ThreeSetup.PointerMove {| clientX := Fin 900; clientY := Fin 200 |}
      (Sample.win 400) (Fin 800) ] ++ frames.

End PageSample.

(* ================================================================== *)
(** ** Arithmetic of the number model *)

Lemma Qle_bool_false (x y : Q) : Qle_bool x y = false -> (y < x)%Q.
Proof.
  intros H. apply Qnot_le_lt. intros Hle.
  apply Qle_bool_iff in Hle. congruence.
Qed.

Lemma Qlt_bool_true (x y : Q) : Qlt_bool x y = true -> (x < y)%Q.
Proof.
  unfold Qlt_bool. intros H. apply negb_true_iff in H.
  now apply Qle_bool_false.
Qed.

Lemma Qlt_bool_false (x y : Q) : Qlt_bool x y = false -> (y <= x)%Q.
Proof.
  unfold Qlt_bool. intros H. apply negb_false_iff in H.
  now apply Qle_bool_iff.
Qed.

Lemma Qeq_bool_false (x y : Q) : Qeq_bool x y = false -> ~ (x == y)%Q.
Proof. apply Qeq_bool_neq. Qed.

(** Turn every boolean test on rationals in the context into its
    proposition, splitting on the tests that are still undecided. *)
Ltac qprops :=
  repeat match goal with
  | H : Qle_bool _ _ = true |- _ => apply Qle_bool_iff in H
  | H : Qle_bool _ _ = false |- _ => apply Qle_bool_false in H
  | H : Qlt_bool _ _ = true |- _ => apply Qlt_bool_true in H
  | H : Qlt_bool _ _ = false |- _ => apply Qlt_bool_false in H
  | H : Qeq_bool _ _ = true |- _ => apply Qeq_bool_iff in H
  | H : Qeq_bool _ _ = false |- _ => apply Qeq_bool_false in H
  end.

Ltac qcases :=
  repeat match goal with
  | |- context [Qle_bool ?a ?b] => destruct (Qle_bool a b) eqn:?
  | |- context [Qlt_bool ?a ?b] => destruct (Qlt_bool a b) eqn:?
  | |- context [Qeq_bool ?a ?b] => destruct (Qeq_bool a b) eqn:?
  end; qprops.

Ltac qarith :=
  unfold Qdiv in *; cbn [Qinv Qnum Qden] in *; first [lra | nra].

(** A number known to lie between two finite bounds is finite. *)
Lemma between_finite (a lo hi : number) :
  (lo <=? a) = true -> (a <=? hi) = true -> finite lo -> finite hi ->
  exists q, a = Fin q.
Proof.
  destruct a, lo, hi; simpl; try discriminate; try tauto.
  intros; eauto.
Qed.

Lemma div_Fin (x y : Q) :
  ~ (y == 0)%Q -> Fin x / Fin y = Fin (x / y).
Proof.
  intros H. simpl. destruct (Qeq_bool y 0) eqn:E; [|reflexivity].
  apply Qeq_bool_iff in E. contradiction.
Qed.

Lemma eqv_refl (a : number) : a === a.
Proof. destruct a; simpl; auto. reflexivity. Qed.

Lemma Forall_mapi_from {A B : Type} (P : B -> Prop) (f : nat -> A -> B)
    (l : list A) :
  forall i, (forall j a, In a l -> P (f j a)) -> Forall P (mapi_from f i l).
Proof.
  induction l as [|a l IH]; intros i H; simpl; constructor.
  - apply H. now left.
  - apply IH. intros j b Hb. apply H. now right.
Qed.

Lemma length_mapi_from {A B : Type} (f : nat -> A -> B) (l : list A) :
  forall i, List.length (mapi_from f i l) = List.length l.
Proof. induction l; intros; simpl; auto. Qed.

(** [set_cursor] only touches the renderer. *)
Lemma set_cursor_fields (s : CategoryCards) (c : Cursor) :
  cards (set_cursor s c) = cards s /\
  hoveredCard (set_cursor s c) = hoveredCard s /\
  interactionsEnabled (set_cursor s c) = interactionsEnabled s /\
  mouseIsOver (set_cursor s c) = mouseIsOver s /\
  mouse (set_cursor s c) = mouse s /\
  camera (set_cursor s c) = camera s /\
  ANIMATION_SCROLL_DISTANCE (set_cursor s c) = ANIMATION_SCROLL_DISTANCE s /\
  is_null (renderer (set_cursor s c)) = is_null (renderer s).
Proof.
  unfold set_cursor. destruct (renderer s) eqn:E; cbn; rewrite ?E; tauto.
Qed.

Lemma cards_set_cursor s c : cards (set_cursor s c) = cards s.
Proof. apply set_cursor_fields. Qed.

Lemma hoveredCard_set_cursor s c : hoveredCard (set_cursor s c) = hoveredCard s.
Proof. apply set_cursor_fields. Qed.

Lemma interactionsEnabled_set_cursor s c :
  interactionsEnabled (set_cursor s c) = interactionsEnabled s.
Proof. apply set_cursor_fields. Qed.

Lemma mouseIsOver_set_cursor s c : mouseIsOver (set_cursor s c) = mouseIsOver s.
Proof. apply set_cursor_fields. Qed.

Lemma mouse_set_cursor s c : mouse (set_cursor s c) = mouse s.
Proof. apply set_cursor_fields. Qed.

Lemma camera_set_cursor s c : camera (set_cursor s c) = camera s.
Proof. apply set_cursor_fields. Qed.

Lemma distance_set_cursor s c :
  ANIMATION_SCROLL_DISTANCE (set_cursor s c) = ANIMATION_SCROLL_DISTANCE s.
Proof. apply set_cursor_fields. Qed.

Lemma renderer_set_cursor s c :
  is_null (renderer (set_cursor s c)) = is_null (renderer s).
Proof. apply set_cursor_fields. Qed.

Lemma scrollProgress_set_cursor s c :
  scrollProgress (set_cursor s c) = scrollProgress s.
Proof. unfold set_cursor. destruct (renderer s); reflexivity. Qed.

Lemma stickyStartScroll_set_cursor s c :
  stickyStartScroll (set_cursor s c) = stickyStartScroll s.
Proof. unfold set_cursor. destruct (renderer s); reflexivity. Qed.

Create Rewrite HintDb fields.
#[export] Hint Rewrite cards_set_cursor hoveredCard_set_cursor
  interactionsEnabled_set_cursor mouseIsOver_set_cursor mouse_set_cursor
  camera_set_cursor distance_set_cursor renderer_set_cursor
  scrollProgress_set_cursor stickyStartScroll_set_cursor : fields.

(** Read a field through the setters. *)
Ltac fields :=
  repeat (autorewrite with fields in *;
          cbn [cards container camera scene renderer sectionTop sectionBottom
               scrollProgress ANIMATION_SCROLL_DISTANCE STICKY_BUFFER
               stickyStartScroll raycaster mouse hoveredCard
               interactionsEnabled mouseIsOver
               set_cards set_camera set_renderer set_section
               set_scrollProgress set_ANIMATION_SCROLL_DISTANCE
               set_stickyStartScroll set_mouse set_hoveredCard
               set_interactionsEnabled set_mouseIsOver] in * ).

(* ================================================================== *)
(** ** Phase scheduling (flip, then spread) *)

Lemma spreadProgress_flip_phase (q : Q) :
  (0 <= q)%Q -> (q <= 0.4)%Q -> spreadProgress (Fin q) = Fin 0.
Proof.
  intros H0 H1. unfold spreadProgress. simpl sub.
  rewrite div_Fin by (intros E; discriminate E).
  simpl. qcases; [reflexivity|].
  exfalso. qarith.
Qed.

Lemma easeInOutCubic_0 : easeInOutCubic (Fin 0) === Fin 0.
Proof. vm_compute. reflexivity. Qed.

Lemma easeInOutCubic_Fin (t : Q) :
  easeInOutCubic (Fin t) =
  if Qlt_bool t 0.5 then Fin (4 * t * t * t)
  else Fin (1 - ((-2 * t + 2) * ((-2 * t + 2) * (-2 * t + 2))) / 2).
Proof.
  unfold easeInOutCubic. simpl lt.
  destruct (Qlt_bool t 0.5); [reflexivity|].
  simpl Math_pow. simpl mul. simpl add. simpl mul.
  rewrite div_Fin by (intros E; discriminate E). reflexivity.
Qed.

Lemma flipProgress_Fin (q : Q) :
  flipProgress (Fin q) =
  if Qle_bool 1 (q / 0.4) then Fin 1 else Fin (q / 0.4).
Proof.
  unfold flipProgress. rewrite div_Fin by (intros E; discriminate E).
  reflexivity.
Qed.

Lemma spreadProgress_Fin (q : Q) :
  spreadProgress (Fin q) =
  if Qle_bool ((q - 0.4) / 0.6) 0 then Fin 0 else Fin ((q - 0.4) / 0.6).
Proof.
  unfold spreadProgress. simpl sub.
  rewrite div_Fin by (intros E; discriminate E). reflexivity.
Qed.

Lemma in01_Fin (t : Q) : in01 (Fin t) <-> (0 <= t <= 1)%Q.
Proof.
  unfold in01, between. simpl. rewrite !Qle_bool_iff. tauto.
Qed.

Lemma in01_inv (a : number) : in01 a -> exists t, a = Fin t /\ (0 <= t <= 1)%Q.
Proof.
  intros H. destruct a as [t| | |]; try (destruct H; discriminate).
  exists t. split; [reflexivity|]. now apply in01_Fin.
Qed.

Lemma easeInOutCubic_in01 (t : number) : in01 t -> in01 (easeInOutCubic t).
Proof.
  intros H. apply in01_inv in H. destruct H as (q & -> & H0 & H1).
  rewrite easeInOutCubic_Fin.
  destruct (Qlt_bool q 0.5) eqn:E; qprops; apply in01_Fin.
  - assert (0 <= q * q)%Q by nra.
    assert (q * q <= 0.25)%Q by nra.
    split; nra.
  - set (u := (-2 * q + 2)%Q).
    assert (0 <= u)%Q by (unfold u; lra).
    assert (u <= 1)%Q by (unfold u; lra).
    assert (0 <= u * u)%Q by nra.
    assert (u * u <= 1)%Q by nra.
    assert (0 <= u * (u * u))%Q by nra.
    assert (u * (u * u) <= 1)%Q by nra.
    unfold Qdiv. cbn [Qinv Qnum Qden]. split; lra.
Qed.

Lemma flipProgress_in01 (q : Q) : (0 <= q)%Q -> in01 (flipProgress (Fin q)).
Proof.
  intros H. rewrite flipProgress_Fin.
  destruct (Qle_bool 1 (q / 0.4)) eqn:E; qprops; apply in01_Fin.
  - lra.
  - qarith.
Qed.

Lemma spreadProgress_in01 (q : Q) : (q <= 1)%Q -> in01 (spreadProgress (Fin q)).
Proof.
  intros H. rewrite spreadProgress_Fin.
  destruct (Qle_bool ((q - 0.4) / 0.6) 0) eqn:E; qprops; apply in01_Fin.
  - lra.
  - qarith.
Qed.

(** C1.  While the flip phase runs (0 <= scrollProgress <= 0.4) the eased
    spread progress computed by [applyScrollAnimation] is exactly 0, and
    after the call every card whose layout abscissas are numbers has its
    [position.x] at its [initialX]. *)
Theorem spread_motionless_during_flip (s : CategoryCards) (sp : number) :
  (Fin 0 <=? sp) = true -> (sp <=? Fin 0.4) = true ->
  easeInOutCubic (spreadProgress sp) === Fin 0 /\
  (Forall layout_finite (cards s) ->
   Forall (fun card => Vector3.x (position card) === initialX (userData card))
          (cards (applyScrollAnimation (set_scrollProgress s sp)))).
Proof.
  intros H0 H1.
  destruct (between_finite _ _ _ H0 H1 I I) as [q ->].
  simpl in H0, H1. qprops.
  rewrite (spreadProgress_flip_phase H0 H1).
  split; [exact easeInOutCubic_0|].
  intros Hfin. unfold applyScrollAnimation.
  cbn [cards set_scrollProgress scrollProgress].
  destruct (Nat.eqb (List.length (cards s)) 0) eqn:El.
  - cbn [cards set_scrollProgress].
    destruct (cards s); [constructor | discriminate].
  - rewrite (spreadProgress_flip_phase H0 H1).
    match goal with
    | |- Forall _ (cards (set_cards _ ?l)) => change (Forall
        (fun card => Vector3.x (position card) === initialX (userData card)) l)
    end.
    match goal with
    | |- Forall _ (mapi _ (cards ?t)) =>
        assert (Hc : cards t = cards s)
          by (destruct (_ && _); fields; reflexivity)
    end.
    rewrite Hc. unfold mapi. apply Forall_mapi_from.
    intros j card Hin.
    rewrite Forall_forall in Hfin. destruct (Hfin _ Hin) as [Ht Hi].
    unfold animateCard. cbn [position userData Vector3.x initialX].
    destruct (targetX (userData card)) as [tx| | |]; try contradiction.
    destruct (initialX (userData card)) as [ix| | |]; try contradiction.
    generalize easeInOutCubic_0.
    destruct (easeInOutCubic (Fin 0)) as [e| | |]; simpl; try tauto.
    intros He. rewrite He. ring.
Qed.

Lemma spread_motionless_during_flip_witness :
  easeInOutCubic (spreadProgress (Fin 0.2)) === Fin 0 /\
  Forall (fun card => Vector3.x (position card) === initialX (userData card))
    (cards (applyScrollAnimation (set_scrollProgress Sample.booted (Fin 0.2)))).
Proof.
  destruct (@spread_motionless_during_flip Sample.booted (Fin 0.2))
    as [A B]; [reflexivity | reflexivity |].
  split; [exact A|]. apply B.
  repeat constructor.
Defined.

(** C3.  For every scrollProgress in [0,1] the eased flip progress and the
    eased spread progress that [applyScrollAnimation] computes lie in
    [0,1]; the easing itself maps [0,1] into [0,1]. *)
Theorem eased_progress_clamped (sp : number) :
  in01 sp ->
  in01 (easeInOutCubic (flipProgress sp)) /\
  in01 (easeInOutCubic (spreadProgress sp)) /\
  (forall t, in01 t -> in01 (easeInOutCubic t)).
Proof.
  intros H. apply in01_inv in H. destruct H as (q & -> & H0 & H1).
  split; [|split].
  - apply easeInOutCubic_in01. now apply flipProgress_in01.
  - apply easeInOutCubic_in01. now apply spreadProgress_in01.
  - exact easeInOutCubic_in01.
Qed.

Lemma eased_progress_clamped_witness :
  in01 (Fin 0.7) /\
  in01 (easeInOutCubic (flipProgress (Fin 0.7))) /\
  in01 (easeInOutCubic (spreadProgress (Fin 0.7))).
Proof.
  assert (H : in01 (Fin 0.7)) by (split; reflexivity).
  split; [exact H|].
  destruct (eased_progress_clamped H) as (A & B & _).
  split; [exact A | exact B].
Defined.

(* ================================================================== *)
(** ** Hover smoothing *)

Lemma smooth_Fin (x t : Q) :
  smooth (Fin x) (Fin t) = Fin (x + (t - x) * 0.15).
Proof. reflexivity. Qed.

Lemma qpow_pos (r : Q) (n : nat) : (0 < r)%Q -> (0 < qpow r n)%Q.
Proof.
  intros Hr. induction n; simpl; [reflexivity|].
  apply Qmult_lt_0_compat; assumption.
Qed.

Lemma qpow_antitone (r : Q) (n k : nat) :
  (0 < r)%Q -> (r <= 1)%Q -> (qpow r (k + n) <= qpow r n)%Q.
Proof.
  intros Hr H1. induction k; simpl; [apply Qle_refl|].
  pose proof (qpow_pos (k + n) Hr). nra.
Qed.

(** After [n] frames the signed gap to the target is 0.85^n times the
    initial gap. *)
Lemma hover_after_Fin (c t : Q) (n : nat) :
  exists x, hover_after n (Fin c) (Fin t) = Fin x /\
            (x - t == qpow 0.85 n * (c - t))%Q.
Proof.
  induction n as [|n (x & E & Hx)]; simpl.
  - exists c. split; [reflexivity|]. ring.
  - rewrite E, smooth_Fin. eexists. split; [reflexivity|].
    setoid_replace (x + (t - x) * 0.15 - t)%Q with (0.85 * (x - t))%Q
      by ring.
    rewrite Hx. ring.
Qed.

Lemma hover_error_Fin (c t : Q) (n : nat) :
  exists e, hover_error n (Fin c) (Fin t) = Fin e /\
            (e == qpow 0.85 n * Qabs (c - t))%Q.
Proof.
  destruct (hover_after_Fin c t n) as (x & E & Hx).
  unfold hover_error. rewrite E. cbn [sub Math_abs].
  exists (Qabs (x - t)). split; [reflexivity|].
  rewrite Hx, Qabs_Qmult.
  rewrite (Qabs_pos (qpow 0.85 n)); [reflexivity|].
  apply Qlt_le_weak, qpow_pos. reflexivity.
Qed.

(** The statement of C9 fails at rest: a card whose [hoverScale] already
    equals its target 1 keeps a zero error, which is not smaller than
    zero. *)
Lemma hover_smoothing_not_strict_at_rest :
  ~ (hover_error 1 (Fin 1) (Fin 1) <? hover_error 0 (Fin 1) (Fin 1)) = true.
Proof. vm_compute. discriminate. Qed.

(** In the exact model: within a range [lo, hi] the distance to the
    target never grows and is at most 1% of the width from frame 29 on. *)
Lemma hover_error_settles (lo hi c t : Q) :
  (lo <= c <= hi)%Q -> (lo <= t <= hi)%Q ->
  (forall n, (hover_error (S n) (Fin c) (Fin t)
              <=? hover_error n (Fin c) (Fin t)) = true) /\
  (forall n, (29 <= n)%nat ->
     (hover_error n (Fin c) (Fin t) <=? Fin (0.01 * (hi - lo))) = true).
Proof.
  intros Hc Ht.
  pose proof (Qabs_nonneg (c - t)) as Hg.
  assert (Hw : (Qabs (c - t) <= hi - lo)%Q)
    by (apply Qabs_case; intros; lra).
  split.
  - intros n.
    destruct (hover_error_Fin c t n) as (e & -> & He).
    destruct (hover_error_Fin c t (S n)) as (e' & -> & He').
    cbn [le]. apply Qle_bool_iff. rewrite He', He. cbn [qpow].
    assert (0 <= qpow 0.85 n * Qabs (c - t))%Q.
    { apply Qmult_le_0_compat; [|exact Hg].
      apply Qlt_le_weak, qpow_pos. reflexivity. }
    lra.
  - intros n Hn.
    destruct (hover_error_Fin c t n) as (e & -> & He).
    cbn [le]. apply Qle_bool_iff. rewrite He.
    replace n with ((n - 29) + 29)%nat by lia.
    pose proof (@qpow_antitone 0.85 29 (n - 29)) as Hm.
    assert (H29 : (qpow 0.85 29 <= 0.01)%Q) by (vm_compute; discriminate).
    assert (Hq : (qpow 0.85 (n - 29 + 29) <= 0.01)%Q).
    { eapply Qle_trans; [apply Hm|exact H29]; [reflexivity|discriminate]. }
    pose proof (@qpow_pos 0.85 (n - 29 + 29) eq_refl) as Hp.
    nra.
Qed.

(** C9, amended.  With a constant target in the hover range, and from any
    value in that range, the distance to the target never grows from one
    frame to the next (it need not shrink: at rest it stays 0), and from
    frame 29 on (hence at frame 40) it is at most 1% of the hover travel:
    0.001 for [hoverScale] in [1, 1.1], 0.015 for [hoverZ] in [0, 1.5]. *)
Theorem hover_smoothing_settles (c t : Q) :
  ((1 <= c <= 1.1)%Q -> (1 <= t <= 1.1)%Q ->
   (forall n, (hover_error (S n) (Fin c) (Fin t)
               <=? hover_error n (Fin c) (Fin t)) = true) /\
   (forall n, (29 <= n)%nat ->
      (hover_error n (Fin c) (Fin t) <=? Fin 0.001) = true)) /\
  ((0 <= c <= 1.5)%Q -> (0 <= t <= 1.5)%Q ->
   (forall n, (hover_error (S n) (Fin c) (Fin t)
               <=? hover_error n (Fin c) (Fin t)) = true) /\
   (forall n, (29 <= n)%nat ->
      (hover_error n (Fin c) (Fin t) <=? Fin 0.015) = true)).
Proof.
  split; intros Hc Ht.
  - destruct (@hover_error_settles 1 1.1 c t Hc Ht) as [A B].
    split; [exact A|]. intros n Hn. specialize (B n Hn).
    destruct (hover_error n (Fin c) (Fin t)); cbn [le] in *;
      try discriminate; try reflexivity.
    qprops. apply Qle_bool_iff.
    assert (E : (0.01 * (1.1 - 1) == 0.001)%Q) by reflexivity. lra.
  - destruct (@hover_error_settles 0 1.5 c t Hc Ht) as [A B].
    split; [exact A|]. intros n Hn. specialize (B n Hn).
    destruct (hover_error n (Fin c) (Fin t)); cbn [le] in *;
      try discriminate; try reflexivity.
    qprops. apply Qle_bool_iff.
    assert (E : (0.01 * (1.5 - 0) == 0.015)%Q) by reflexivity. lra.
Qed.

Lemma hover_smoothing_settles_witness :
  (1 <= 1 <= 1.1)%Q /\ (1 <= 1.1 <= 1.1)%Q /\
  (hover_error 1 (Fin 1) (Fin 1.1) <=? hover_error 0 (Fin 1) (Fin 1.1))
  = true /\
  (29 <= 40)%nat /\
  (hover_error 40 (Fin 1) (Fin 1.1) <=? Fin 0.001) = true /\
  (0 <= 1.5 <= 1.5)%Q /\ (0 <= 0 <= 1.5)%Q /\
  (hover_error 40 (Fin 1.5) (Fin 0) <=? Fin 0.015) = true.
Proof.
  assert (Hc : (1 <= 1 <= 1.1)%Q) by (split; vm_compute; discriminate).
  assert (Ht : (1 <= 1.1 <= 1.1)%Q) by (split; vm_compute; discriminate).
  assert (Hc' : (0 <= 1.5 <= 1.5)%Q) by (split; vm_compute; discriminate).
  assert (Ht' : (0 <= 0 <= 1.5)%Q) by (split; vm_compute; discriminate).
  assert (Hle : (29 <= 40)%nat) by lia.
  destruct (hover_smoothing_settles 1 1.1) as [S _].
  destruct (hover_smoothing_settles 1.5 0) as [_ Z].
  destruct (S Hc Ht) as (A & B). destruct (Z Hc' Ht') as (_ & B').
  split; [exact Hc|]. split; [exact Ht|]. split; [exact (A 0%nat)|].
  split; [exact Hle|]. split; [exact (B 40%nat Hle)|].
  split; [exact Hc'|]. split; [exact Ht'|]. exact (B' 40%nat Hle).
Defined.

(* ================================================================== *)
(** ** What every handler preserves *)

Lemma between_inv (lo hi : Q) (a : number) :
  between lo a hi -> exists q, a = Fin q /\ (lo <= q <= hi)%Q.
Proof.
  intros [H0 H1]. destruct a as [q| | |]; try discriminate.
  exists q. simpl in *. qprops. auto.
Qed.

Lemma between_Fin (lo hi q : Q) : (lo <= q <= hi)%Q -> between lo (Fin q) hi.
Proof.
  intros [H0 H1]. split; simpl; now apply Qle_bool_iff.
Qed.

Lemma smooth_between (lo hi t : Q) (a : number) :
  (lo <= t <= hi)%Q -> between lo a hi -> between lo (smooth a (Fin t)) hi.
Proof.
  intros Ht Ha. apply between_inv in Ha. destruct Ha as (q & -> & Hq).
  rewrite smooth_Fin. apply between_Fin. lra.
Qed.

Lemma animateCard_hover_in_range enabled hovered easedFlip easedSpread ref card :
  hover_in_range card ->
  hover_in_range (animateCard enabled hovered easedFlip easedSpread ref card).
Proof.
  intros (Hs & Hz & _).
  assert (Hs' : between 1
    (smooth (hoverScale (userData card))
       (if enabled && same_mesh hovered ref then Fin 1.1 else Fin 1)) 1.1).
  { destruct (enabled && same_mesh hovered ref);
      (apply smooth_between; [lra | exact Hs]). }
  assert (Hz' : between 0
    (smooth (hoverZ (userData card))
       (if enabled && same_mesh hovered ref then Fin 1.5 else Fin 0)) 1.5).
  { destruct (enabled && same_mesh hovered ref);
      (apply smooth_between; [lra | exact Hz]). }
  unfold hover_in_range, animateCard.
  cbn [userData hoverScale hoverZ scale Vector3.x Vector3.y Vector3.z].
  tauto.
Qed.

Lemma applyScrollAnimation_empty (s : CategoryCards) :
  cards s = [] -> applyScrollAnimation s = s.
Proof. intros E. unfold applyScrollAnimation. now rewrite E. Qed.

Lemma applyScrollAnimation_enabled (s : CategoryCards) :
  cards s <> [] ->
  interactionsEnabled (applyScrollAnimation s)
  = (flipProgress (scrollProgress s) >=? Fin 1).
Proof.
  intros Hne. unfold applyScrollAnimation.
  destruct (cards s) eqn:Ec; [congruence|]. cbn [List.length Nat.eqb].
  destruct (_ && _); fields; reflexivity.
Qed.

(** The fields [applyScrollAnimation] never writes, and what it may do to
    [hoveredCard]: keep it, or clear it on a falling edge. *)
Lemma applyScrollAnimation_frame (s : CategoryCards) :
  let s' := applyScrollAnimation s in
  mouseIsOver s' = mouseIsOver s /\
  mouse s' = mouse s /\
  camera s' = camera s /\
  ANIMATION_SCROLL_DISTANCE s' = ANIMATION_SCROLL_DISTANCE s /\
  List.length (cards s') = List.length (cards s) /\
  (hoveredCard s' = hoveredCard s \/ hoveredCard s' = None) /\
  (interactionsEnabled s' = false ->
   (interactionsEnabled s = false -> hoveredCard s = None) ->
   hoveredCard s' = None) /\
  (Forall hover_in_range (cards s) -> Forall hover_in_range (cards s')).
Proof.
  unfold applyScrollAnimation.
  destruct (Nat.eqb (List.length (cards s)) 0) eqn:El.
  { cbv zeta. repeat split; auto. }
  cbv zeta.
  destruct (interactionsEnabled s) eqn:Ew;
    destruct (flipProgress (scrollProgress s) >=? Fin 1) eqn:Ef;
    fields; cbn [andb negb]; fields; unfold mapi;
    rewrite ?length_mapi_from; repeat split; auto; try discriminate;
    try (intros Hh; apply Forall_mapi_from; intros j a Hin;
         apply animateCard_hover_in_range;
         rewrite Forall_forall in Hh; now apply Hh).
Qed.

Lemma applyScrollAnimation_scroll (s : CategoryCards) :
  scrollProgress (applyScrollAnimation s) = scrollProgress s /\
  stickyStartScroll (applyScrollAnimation s) = stickyStartScroll s.
Proof.
  unfold applyScrollAnimation.
  destruct (Nat.eqb (List.length (cards s)) 0); [auto|].
  cbv zeta. destruct (_ && _); fields; auto.
Qed.

Lemma Inv_applyScrollAnimation (s : CategoryCards) :
  Inv s -> Inv (applyScrollAnimation s).
Proof.
  intros [Hc He Ho Hr Hd Hh].
  destruct (applyScrollAnimation_frame s)
    as (Eo & Em & _ & Ed & El & Ek & Ee & Eh).
  constructor.
  - congruence.
  - intros H. now apply Ee.
  - rewrite Eo, Em. intros H. destruct (Ho H) as [H1 H2].
    split; [|exact H2]. destruct Ek; congruence.
  - rewrite El. intros ref H. apply Hr. destruct Ek; congruence.
  - congruence.
  - now apply Eh.
Qed.

Lemma Inv_onMouseMove event canvas (s : CategoryCards) :
  Inv s -> Inv (onMouseMove event canvas s).
Proof.
  intros [Hc He Ho Hr Hd Hh]. unfold onMouseMove.
  destruct (negb (container s) || is_null (renderer s));
    [now constructor|].
  constructor; fields; auto. discriminate.
Qed.

Lemma onMouseLeave_clears (s : CategoryCards) :
  mouseIsOver (onMouseLeave s) = false /\
  mouse (onMouseLeave s) = off_screen /\
  hoveredCard (onMouseLeave s) = None.
Proof.
  unfold onMouseLeave. fields.
  destruct (hoveredCard s) eqn:E; cbn [is_null negb]; fields; auto.
Qed.

Lemma Inv_onMouseLeave (s : CategoryCards) : Inv s -> Inv (onMouseLeave s).
Proof.
  intros [Hc He Ho Hr Hd Hh].
  destruct (onMouseLeave_clears s) as (Eo & Em & Eh).
  assert (Ec : cards (onMouseLeave s) = cards s /\
               ANIMATION_SCROLL_DISTANCE (onMouseLeave s)
               = ANIMATION_SCROLL_DISTANCE s).
  { unfold onMouseLeave. fields.
    destruct (hoveredCard s); cbn [is_null negb]; fields; auto. }
  destruct Ec as [Ec Ed].
  constructor; rewrite ?Ec, ?Ed; auto; try congruence.
Qed.

Lemma Inv_updateSectionDimensions doc (s : CategoryCards) :
  Inv s -> Inv (updateSectionDimensions doc s).
Proof.
  intros H. unfold updateSectionDimensions.
  destruct (categories_section doc); [|exact H].
  destruct H. constructor; fields; auto.
Qed.

Lemma onClick_state (s : CategoryCards) : fst (onClick s) = s.
Proof.
  unfold onClick. destruct (_ || _); [reflexivity|].
  destruct (hoveredCard s) as [ref|]; [|reflexivity].
  destruct (nth_error (cards s) ref); reflexivity.
Qed.

Section Reach.

Variable Math_tan : number -> number.
Variable intersect : Vector2.t -> Camera -> list Mesh -> list nat.

Lemma intersectObjects_head mouse camera objects ref rest :
  intersectObjects intersect mouse camera objects = ref :: rest ->
  (ref < List.length objects)%nat.
Proof.
  unfold intersectObjects. intros E.
  assert (Hin : In ref (ref :: rest)) by now left.
  rewrite <- E in Hin. apply filter_In in Hin.
  now apply Nat.ltb_lt.
Qed.

(** [checkIntersections] leaves the hover alone when the pointer is not
    over the canvas, and clears it when interactions are disabled. *)
Lemma checkIntersections_frame (s : CategoryCards) :
  let s' := checkIntersections intersect s in
  cards s' = cards s /\
  interactionsEnabled s' = interactionsEnabled s /\
  mouseIsOver s' = mouseIsOver s /\
  mouse s' = mouse s /\
  ANIMATION_SCROLL_DISTANCE s' = ANIMATION_SCROLL_DISTANCE s /\
  (interactionsEnabled s = false -> hoveredCard s' = None) /\
  (mouseIsOver s = false -> hoveredCard s = None -> hoveredCard s' = None) /\
  (forall ref, hoveredCard s' = Some ref ->
     hoveredCard s = Some ref \/ (ref < List.length (cards s))%nat).
Proof.
  unfold checkIntersections.
  destruct (interactionsEnabled s) eqn:Ee; cbn [negb].
  2:{ destruct (hoveredCard s) eqn:Eh; cbn [is_null negb]; fields;
      repeat split; auto; try discriminate; try (intros; congruence). }
  destruct (mouseIsOver s) eqn:Eo; cbn [negb].
  2:{ cbv zeta. repeat split; auto; try discriminate; try (intros; congruence). }
  destruct (camera s) as [cam|];
    [|cbv zeta; repeat split; auto; try discriminate; try (intros; congruence)].
  destruct (negb (raycaster s) || Nat.eqb (List.length (cards s)) 0);
    [cbv zeta; repeat split; auto; try discriminate; try (intros; congruence)|].
  destruct (intersectObjects intersect (mouse s) cam (cards s))
    as [|newHovered rest] eqn:Ei.
  - destruct (hoveredCard s) eqn:Eh; cbn [is_null negb]; fields;
      repeat split; auto; try discriminate; try (intros; congruence).
  - apply intersectObjects_head in Ei.
    destruct (same_mesh (hoveredCard s) newHovered) eqn:Es; cbn [negb];
      fields; repeat split; auto; try discriminate; try (intros; congruence).
    intros ref [= <-]. now right.
Qed.

Lemma checkIntersections_scroll (s : CategoryCards) :
  scrollProgress (checkIntersections intersect s) = scrollProgress s /\
  stickyStartScroll (checkIntersections intersect s) = stickyStartScroll s.
Proof.
  unfold checkIntersections.
  repeat match goal with
  | |- context [if ?b then _ else _] => destruct b
  | |- context [match ?o with Some _ => _ | None => _ end] => destruct o
  | |- context [match ?l with [] => _ | _ :: _ => _ end] => destruct l
  end; fields; auto.
Qed.

Lemma Inv_checkIntersections (s : CategoryCards) :
  Inv s -> Inv (checkIntersections intersect s).
Proof.
  intros [Hc He Ho Hr Hd Hh].
  destruct (checkIntersections_frame s)
    as (Ec & Ee & Eo & Em & Ed & Hdis & Hout & Href).
  constructor; rewrite ?Ec, ?Ee, ?Eo, ?Em, ?Ed; auto.
  - intros H. destruct (Ho H) as [H1 H2]. split; auto.
  - intros ref H. destruct (Href ref H); auto.
Qed.

Lemma Inv_animate doc win (s : CategoryCards) :
  Inv s -> Inv (animate intersect doc win s).
Proof.
  intros H. unfold animate.
  destruct (categories_section doc) as [sec|] eqn:Es; [|exact H].
  apply Inv_checkIntersections, Inv_applyScrollAnimation.
  set (s1 := if Number.strict_eq (sectionTop s) (Fin 0)
             then updateSectionDimensions doc s else s).
  assert (H1 : Inv s1).
  { unfold s1. destruct (Number.strict_eq _ _);
      [now apply Inv_updateSectionDimensions|exact H]. }
  destruct (top (getBoundingClientRect sec) <=? Fin 0).
  - set (s2 := if is_null (stickyStartScroll s1) then _ else s1).
    assert (H2 : Inv s2).
    { unfold s2. destruct (is_null _); [|exact H1].
      destruct H1. constructor; fields; auto. }
    destruct (stickyStartScroll s2); [|exact H2].
    destruct H2. constructor; fields; auto.
  - destruct H1. constructor; fields; auto.
Qed.

Lemma Inv_onResize el doc (s : CategoryCards) :
  Inv s -> Inv (onResize el doc s).
Proof.
  intros H. unfold onResize.
  destruct (renderer s); [|exact H].
  destruct (camera s); [|exact H].
  destruct (negb (container s)); [exact H|].
  apply Inv_updateSectionDimensions.
  destruct H. constructor; fields; auto.
Qed.

Lemma Inv_boot doc win : Inv (boot Math_tan doc win).
Proof.
  assert (Hi : forall s, cards s = [] -> hoveredCard s = None ->
                 mouse s = off_screen ->
                 ANIMATION_SCROLL_DISTANCE s = Fin 3200 ->
                 cards (init doc s) = [] /\ hoveredCard (init doc s) = None /\
                 mouse (init doc s) = off_screen /\
                 ANIMATION_SCROLL_DISTANCE (init doc s) = Fin 3200).
  { intros s Hc Hh Hm Hd. unfold init.
    destruct (category_cards_container doc); [|auto].
    unfold updateSectionDimensions.
    destruct (categories_section doc); fields; auto. }
  destruct (Hi constructor eq_refl eq_refl eq_refl eq_refl)
    as (Hc & Hh & Hm & Hd).
  unfold boot, createCards.
  set (el := match category_cards_container doc with
             | Some e => e | None => _ end).
  constructor; fields; rewrite ?Hc; auto.
  - intros ref E. rewrite Hh in E. discriminate.
  - cbn [app mapi categories mapi_from].
    repeat constructor.
Qed.

Lemma reachable_Inv (s : CategoryCards) :
  reachable Math_tan intersect s -> Inv s.
Proof.
  induction 1 as [doc win|s e _ IH].
  - apply Inv_boot.
  - destruct e; cbn [handle].
    + now apply Inv_animate.
    + now apply Inv_onMouseMove.
    + now apply Inv_onMouseLeave.
    + now rewrite onClick_state.
    + now apply Inv_onResize.
Qed.

Lemma reachable_run (events : list Event) (s : CategoryCards) :
  reachable Math_tan intersect s ->
  reachable Math_tan intersect (run intersect events s).
Proof.
  revert s. induction events as [|e events IH]; intros s H; cbn.
  - exact H.
  - apply IH. now constructor.
Qed.

Lemma run_Inv doc win (events : list Event) :
  Inv (run intersect events (boot Math_tan doc win)).
Proof. apply reachable_Inv, reachable_run. constructor. Qed.

End Reach.

(* ================================================================== *)
(** ** One frame of [animate] *)

Lemma flip_complete (sp : number) :
  (flipProgress sp >=? Fin 1) = (sp >=? Fin 0.4).
Proof.
  destruct sp as [q| | |]; try reflexivity.
  rewrite flipProgress_Fin. unfold ge.
  destruct (Qle_bool 1 (q / 0.4)) eqn:E; cbn [le]; qprops.
  - symmetry. apply Qle_bool_iff. qarith.
  - destruct (Qle_bool 1 (q / 0.4)) eqn:E1;
      destruct (Qle_bool 0.4 q) eqn:E2; qprops; try reflexivity;
      exfalso; qarith.
Qed.

Lemma updateSectionDimensions_scroll doc (s : CategoryCards) :
  let s' := updateSectionDimensions doc s in
  stickyStartScroll s' = stickyStartScroll s /\
  ANIMATION_SCROLL_DISTANCE s' = ANIMATION_SCROLL_DISTANCE s /\
  cards s' = cards s.
Proof.
  unfold updateSectionDimensions.
  destruct (categories_section doc); fields; auto.
Qed.

Section Frames.

Variable intersect : Vector2.t -> Camera -> list Mesh -> list nat.

(** A frame with the section pinned ([rect.top <= 0]). *)
Lemma animate_pinned doc win sec (s : CategoryCards) :
  categories_section doc = Some sec ->
  (top (getBoundingClientRect sec) <=? Fin 0) = true ->
  let currentScroll := or_else (scrollY win) (pageYOffset win) in
  let s' := animate intersect doc win s in
  stickyStartScroll s' = Some (sticky_anchor s currentScroll) /\
  scrollProgress s' =
    Math_min (Fin 1)
      ((currentScroll - sticky_anchor s currentScroll)
       / ANIMATION_SCROLL_DISTANCE s).
Proof.
  intros Es Ht. unfold animate. rewrite Es, Ht. cbv zeta.
  destruct (checkIntersections_scroll intersect
    (applyScrollAnimation
       (let s0 := if Number.strict_eq (sectionTop s) (Fin 0)
                  then updateSectionDimensions doc s else s in
        let s1 := if is_null (stickyStartScroll s0)
                  then set_stickyStartScroll s0
                         (Some (or_else (scrollY win) (pageYOffset win)))
                  else s0 in
        match stickyStartScroll s1 with
        | Some start =>
            set_scrollProgress s1
              (Math_min (Fin 1)
                 ((or_else (scrollY win) (pageYOffset win) - start)
                  / ANIMATION_SCROLL_DISTANCE s1))
        | None => s1
        end))) as [E1 E2].
  cbv zeta in E1, E2. rewrite E1, E2. clear E1 E2.
  match goal with
  | |- context [applyScrollAnimation ?t] =>
      destruct (applyScrollAnimation_scroll t) as [E1 E2]
  end.
  rewrite E1, E2. clear E1 E2.
  destruct (updateSectionDimensions_scroll doc s) as (U1 & U2 & _).
  unfold sticky_anchor.
  destruct (Number.strict_eq (sectionTop s) (Fin 0));
    rewrite ?U1, ?U2;
    destruct (stickyStartScroll s) eqn:Ea; cbn [is_null]; fields;
    rewrite ?U1, ?U2, ?Ea; fields; rewrite ?U2; auto.
Qed.

(** A frame with the section below the viewport top ([rect.top > 0]). *)
Lemma animate_unpinned doc win sec (s : CategoryCards) :
  categories_section doc = Some sec ->
  (top (getBoundingClientRect sec) <=? Fin 0) = false ->
  Inv s ->
  let s' := animate intersect doc win s in
  scrollProgress s' = Fin 0 /\
  stickyStartScroll s' = None /\
  interactionsEnabled s' = false /\
  hoveredCard s' = None.
Proof.
  intros Es Ht HI.
  pose proof (Inv_animate intersect doc win HI) as HI'.
  cbv zeta.
  assert (H : scrollProgress (animate intersect doc win s) = Fin 0 /\
              stickyStartScroll (animate intersect doc win s) = None /\
              interactionsEnabled (animate intersect doc win s) = false).
  { unfold animate. rewrite Es, Ht. cbv zeta.
    match goal with
    | |- context [checkIntersections _ ?t] =>
        destruct (checkIntersections_scroll intersect t) as [E1 E2];
        destruct (checkIntersections_frame intersect t)
          as (_ & E3 & _)
    end.
    rewrite E1, E2, E3. clear E1 E2 E3.
    match goal with
    | |- context [applyScrollAnimation ?t] =>
        destruct (applyScrollAnimation_scroll t) as [E1 E2];
        pose proof (@applyScrollAnimation_enabled t) as E3
    end.
    rewrite E1, E2, E3; clear E1 E2 E3; fields.
    - repeat split; reflexivity.
    - destruct (updateSectionDimensions_scroll doc s) as (_ & _ & U).
      destruct (Number.strict_eq (sectionTop s) (Fin 0));
        rewrite ?U; intros E; apply (f_equal (@List.length _)) in E;
        rewrite (inv_cards HI) in E; discriminate E. }
  destruct H as (A & B & C). repeat split; auto.
  now apply (inv_enabled HI').
Qed.

End Frames.

(* ================================================================== *)
(** ** The page: gating, reset, pointer, click, hover bounds *)

Section Page.

Variable Math_tan : number -> number.
Variable intersect : Vector2.t -> Camera -> list Mesh -> list nat.

(** C2.  On every frame of the page, [applyScrollAnimation] sets
    [interactionsEnabled] to [Math.min(1, scrollProgress / 0.4) >= 1]:
    false for every scrollProgress below 0.4, true from 0.4 on. *)
Theorem interactions_gated doc win (events : list Event) (sp : number) :
  let s := run intersect events (boot Math_tan doc win) in
  let s' := applyScrollAnimation (set_scrollProgress s sp) in
  interactionsEnabled s' = (Math_min (Fin 1) (sp / Fin 0.4) >=? Fin 1) /\
  ((sp <? Fin 0.4) = true -> interactionsEnabled s' = false) /\
  ((sp >=? Fin 0.4) = true -> interactionsEnabled s' = true).
Proof.
  intros s s'.
  assert (E : interactionsEnabled s' = (flipProgress sp >=? Fin 1)).
  { unfold s'. rewrite applyScrollAnimation_enabled; [reflexivity|].
    fields. intros Hc. apply (f_equal (@List.length _)) in Hc.
    unfold s in Hc. rewrite (inv_cards (run_Inv Math_tan intersect _ _ _)) in Hc.
    discriminate Hc. }
  split; [exact E|]. rewrite E, flip_complete. split; [|auto].
  intros Hlt. unfold ge.
  destruct sp as [q| | |]; try discriminate Hlt; try reflexivity.
  cbn [lt le] in *. qprops.
  destruct (Qle_bool 0.4 q) eqn:E1; [|reflexivity]. qprops. lra.
Qed.

(** C6.  Whenever the page is idle, disabled interactions go with no
    hovered card; a call of [applyScrollAnimation] with scrollProgress
    back at 0 leaves interactions disabled and the hover cleared; and so
    does a whole frame on which the section is no longer pinned. *)
Theorem reset_clears_hover doc win (events : list Event) :
  let s := run intersect events (boot Math_tan doc win) in
  (interactionsEnabled s = false -> hoveredCard s = None) /\
  (let s' := applyScrollAnimation (set_scrollProgress s (Fin 0)) in
   interactionsEnabled s' = false /\ hoveredCard s' = None) /\
  (forall doc' win' sec,
     categories_section doc' = Some sec ->
     (top (getBoundingClientRect sec) <=? Fin 0) = false ->
     let s' := animate intersect doc' win' s in
     scrollProgress s' = Fin 0 /\
     interactionsEnabled s' = false /\ hoveredCard s' = None).
Proof.
  intros s.
  pose proof (run_Inv Math_tan intersect doc win events) as HI.
  fold s in HI.
  split; [exact (inv_enabled HI)|]. split.
  - assert (HI0 : Inv (set_scrollProgress s (Fin 0)))
      by (destruct HI; constructor; fields; auto).
    cbv zeta.
    assert (E : interactionsEnabled
                  (applyScrollAnimation (set_scrollProgress s (Fin 0)))
                = false).
    { rewrite applyScrollAnimation_enabled; [reflexivity|].
      fields. intros Hc. apply (f_equal (@List.length _)) in Hc.
      rewrite (inv_cards HI) in Hc. discriminate Hc. }
    split; [exact E|].
    exact (inv_enabled (Inv_applyScrollAnimation HI0) E).
  - intros doc' win' sec Es Ht.
    destruct (animate_unpinned intersect doc' win' Es Ht HI)
      as (A & _ & B & C).
    cbv zeta. auto.
Qed.

(** C7.  Whenever the page is idle with the pointer outside the canvas
    ([mouseIsOver] false), no card is hovered and the pointer coordinates
    are the sentinel (-999, -999); [onMouseLeave] establishes exactly that,
    and [checkIntersections] does not hover a card while [mouseIsOver] is
    false. *)
Theorem pointer_outside_no_hover doc win (events : list Event) :
  let s := run intersect events (boot Math_tan doc win) in
  (mouseIsOver s = false -> hoveredCard s = None /\ mouse s = off_screen) /\
  (mouseIsOver (onMouseLeave s) = false /\
   mouse (onMouseLeave s) = off_screen /\
   hoveredCard (onMouseLeave s) = None) /\
  (mouseIsOver s = false ->
   hoveredCard (checkIntersections intersect s) = None).
Proof.
  intros s.
  pose proof (run_Inv Math_tan intersect doc win events) as HI.
  fold s in HI.
  split; [exact (inv_over HI)|]. split; [apply onMouseLeave_clears|].
  intros Ho.
  destruct (checkIntersections_frame intersect s)
    as (_ & _ & _ & _ & _ & _ & Hout & _).
  apply Hout; [exact Ho|]. now apply (inv_over HI).
Qed.

(** C10.  At every moment of the page, every card has [hoverScale] in
    [1, 1.1] and [hoverZ] in [0, 1.5], and the scale committed to its
    mesh is in [1, 1.1] on the three axes. *)
Theorem hover_state_bounded doc win (events : list Event) :
  Forall hover_in_range (cards (run intersect events (boot Math_tan doc win))).
Proof. exact (inv_hover (run_Inv Math_tan intersect doc win events)). Qed.

(** C8.  A click changes no field.  It dispatches exactly one
    [categoryCardClick], carrying the hovered card's [categoryName] and
    [index], when interactions are enabled, renderer and camera exist and a
    card is hovered; it dispatches nothing in every other case.  On the
    page a hovered reference always designates a card. *)
Theorem click_contract (s : CategoryCards) :
  fst (onClick s) = s /\
  (forall ref card,
     interactionsEnabled s = true ->
     renderer s <> None -> camera s <> None ->
     hoveredCard s = Some ref -> nth_error (cards s) ref = Some card ->
     snd (onClick s) =
       [ {| category := categoryName (userData card);
            detail_index := index (userData card) |} ]) /\
  (interactionsEnabled s = false \/ renderer s = None \/ camera s = None
   \/ hoveredCard s = None ->
   snd (onClick s) = []) /\
  (forall doc win events ref,
     s = run intersect events (boot Math_tan doc win) ->
     hoveredCard s = Some ref ->
     exists card, nth_error (cards s) ref = Some card).
Proof.
  split; [apply onClick_state|]. unfold onClick. split; [|split].
  3:{ intros doc win events ref -> Hh.
      pose proof (run_Inv Math_tan intersect doc win events) as HI.
      apply (inv_ref HI) in Hh. apply nth_error_Some in Hh.
      destruct (nth_error _ ref) as [card|]; [eauto|congruence]. }
  - intros ref card He Hr Hc Hh Hn. rewrite He, Hh, Hn.
    destruct (renderer s); [|congruence].
    destruct (camera s); [|congruence]. reflexivity.
  - intros [H|[H|[H|H]]]; rewrite H; cbn [negb orb is_null];
      rewrite ?orb_true_r; try reflexivity.
    destruct (_ || _); reflexivity.
Qed.

End Page.

(* ================================================================== *)
(** ** The pinned progress mapping *)

Section Pinned.

Variable Math_tan : number -> number.
Variable intersect : Vector2.t -> Camera -> list Mesh -> list nat.


End Pinned.



(** C4 fails on the code.  The page is first seen pinned at scroll offset
    1000 (the anchor); the user then scrolls up to 200 with the section
    still pinned.  [animate] stores the progress -1/4: only the upper
    clamp [Math.min(1, ...)] is applied. *)
Theorem pinned_progress_negative_below_anchor :
  let s := run Sample.ray
             [Frame (Sample.doc 0) (Sample.win 1000);
              Frame (Sample.doc 0) (Sample.win 200)] Sample.booted in
  stickyStartScroll s = Some (Fin 1000) /\
  scrollProgress s === Fin (-0.25) /\
  (scrollProgress s <? Fin 0) = true.
Proof.
  cbv zeta. split; [reflexivity|]. split.
  - vm_compute. reflexivity.
  - vm_compute. reflexivity.
Qed.

(* ================================================================== *)
(** ** The statements on the sample page *)

Lemma interactions_gated_witness :
  (Fin 0.3 <? Fin 0.4) = true /\
  interactionsEnabled
    (applyScrollAnimation (set_scrollProgress Sample.hovering (Fin 0.3)))
  = false /\
  (Fin 0.4 >=? Fin 0.4) = true /\
  interactionsEnabled
    (applyScrollAnimation (set_scrollProgress Sample.hovering (Fin 0.4)))
  = true.
Proof.
  destruct (interactions_gated Sample.tan Sample.ray (Sample.doc 300)
              (Sample.win 0) Sample.hover_events (Fin 0.3)) as (_ & A & _).
  destruct (interactions_gated Sample.tan Sample.ray (Sample.doc 300)
              (Sample.win 0) Sample.hover_events (Fin 0.4)) as (_ & _ & B).
  split; [reflexivity|]. split; [exact (A eq_refl)|].
  split; [reflexivity|exact (B eq_refl)].
Defined.

Lemma reset_clears_hover_witness :
  interactionsEnabled Sample.booted = false /\
  hoveredCard Sample.booted = None /\
  hoveredCard Sample.hovering = Some 2%nat /\
  let s' := animate Sample.ray (Sample.doc 300) (Sample.win 900)
              Sample.hovering in
  scrollProgress s' = Fin 0 /\
  interactionsEnabled s' = false /\ hoveredCard s' = None.
Proof.
  destruct (reset_clears_hover Sample.tan Sample.ray (Sample.doc 300)
              (Sample.win 0) []) as (A & _ & _).
  destruct (reset_clears_hover Sample.tan Sample.ray (Sample.doc 300)
              (Sample.win 0) Sample.hover_events) as (_ & _ & C).
  split; [reflexivity|]. split; [exact (A eq_refl)|].
  split; [reflexivity|].
  exact (C (Sample.doc 300) (Sample.win 900) (Sample.section_el 300)
           eq_refl eq_refl).
Defined.

Lemma pointer_outside_no_hover_witness :
  let s := run Sample.ray (Sample.hover_events ++ [MouseLeave])
             Sample.booted in
  mouseIsOver s = false /\ hoveredCard s = None /\ mouse s = off_screen /\
  hoveredCard (checkIntersections Sample.ray s) = None.
Proof.
  destruct (pointer_outside_no_hover Sample.tan Sample.ray (Sample.doc 300)
              (Sample.win 0) (Sample.hover_events ++ [MouseLeave]))
    as (A & _ & C).
  cbv zeta. split; [reflexivity|].
  destruct (A eq_refl) as [A1 A2].
  split; [exact A1|]. split; [exact A2|exact (C eq_refl)].
Defined.

Lemma click_contract_witness :
  interactionsEnabled Sample.hovering = true /\
  hoveredCard Sample.hovering = Some 2%nat /\
  snd (onClick Sample.hovering)
  = [ {| category := "Hockey"; detail_index := 2 |} ] /\
  snd (onClick Sample.booted) = [].
Proof.
  destruct (click_contract Sample.tan Sample.ray Sample.hovering)
    as (_ & A & _).
  destruct (click_contract Sample.tan Sample.ray Sample.booted)
    as (_ & _ & B & _).
  assert (He : interactionsEnabled Sample.hovering = true)
    by (vm_compute; reflexivity).
  assert (Hh : hoveredCard Sample.hovering = Some 2%nat)
    by (vm_compute; reflexivity).
  assert (Hr : renderer Sample.hovering <> None)
    by (vm_compute; discriminate).
  assert (Hc : camera Sample.hovering <> None)
    by (vm_compute; discriminate).
  assert (Hn : exists card,
             nth_error (cards Sample.hovering) 2 = Some card /\
             categoryName (userData card) = "Hockey"%string /\
             index (userData card) = 2%nat).
  { vm_compute. eexists. split; [reflexivity|]. split; reflexivity. }
  destruct Hn as (card & Hn & Ename & Eindex).
  split; [exact He|]. split; [exact Hh|]. split.
  - rewrite <- Ename, <- Eindex. exact (A 2%nat card He Hr Hc Hh Hn).
  - apply B. left. vm_compute. reflexivity.
Defined.

(* ================================================================== *)
(** ** The easing curve *)

Lemma Qsquare_nonneg (x : Q) : (0 <= x * x)%Q.
Proof.
  destruct (Qlt_le_dec x 0) as [H|H].
  - setoid_replace (x * x)%Q with ((- x) * (- x))%Q by ring.
    apply Qmult_le_0_compat; lra.
  - now apply Qmult_le_0_compat.
Qed.

Lemma cube_monotone (a b : Q) : (a <= b)%Q -> (a * a * a <= b * b * b)%Q.
Proof.
  intros H.
  pose proof (Qsquare_nonneg (a + b * (1 # 2))) as H1.
  pose proof (Qsquare_nonneg b) as H2.
  assert (H3 : (0 <= a * a + a * b + b * b)%Q) by lra.
  assert (H4 : (0 <= (b - a) * (a * a + a * b + b * b))%Q)
    by (apply Qmult_le_0_compat; lra).
  lra.
Qed.

Lemma easeInOutCubic_le (a b : Q) :
  (a <= b)%Q ->
  (easeInOutCubic (Fin a) <=? easeInOutCubic (Fin b)) = true.
Proof.
  intros H. rewrite !easeInOutCubic_Fin.
  pose proof (cube_monotone H) as Hc.
  pose proof (@cube_monotone (-2 * b + 2) (-2 * a + 2)) as Hd.
  destruct (Qlt_bool a 0.5) eqn:Ea; destruct (Qlt_bool b 0.5) eqn:Eb;
    qprops; cbn [le]; apply Qle_bool_iff.
  - lra.
  - pose proof (@cube_monotone a 0.5) as H1.
    pose proof (@cube_monotone (-2 * b + 2) 1) as H2.
    unfold Qdiv. cbn [Qinv Qnum Qden].
    assert (a * a * a <= 0.5 * 0.5 * 0.5)%Q by (apply H1; lra).
    assert ((-2 * b + 2) * (-2 * b + 2) * (-2 * b + 2) <= 1 * 1 * 1)%Q
      by (apply H2; lra).
    lra.
  - exfalso. lra.
  - unfold Qdiv. cbn [Qinv Qnum Qden].
    assert ((-2 * b + 2) * (-2 * b + 2) * (-2 * b + 2)
            <= (-2 * a + 2) * (-2 * a + 2) * (-2 * a + 2))%Q
      by (apply Hd; lra).
    lra.
Qed.

(** X1.  The easing never decreases: a larger raw progress gives a pose at
    least as advanced, on both branches and across the junction at 0.5. *)
Theorem easeInOutCubic_monotone (a b : Q) :
  (a <= b)%Q ->
  (easeInOutCubic (Fin a) <=? easeInOutCubic (Fin b)) = true.
Proof. apply easeInOutCubic_le. Qed.

Lemma easeInOutCubic_monotone_witness :
  (0.3 <= 0.8)%Q /\
  (easeInOutCubic (Fin 0.3) <=? easeInOutCubic (Fin 0.8)) = true.
Proof.
  assert (H : (0.3 <= 0.8)%Q) by (vm_compute; discriminate).
  split; [exact H | exact (easeInOutCubic_monotone H)].
Defined.

(* ================================================================== *)
(** ** The pose [applyScrollAnimation] commits *)

Lemma nth_error_mapi_from {A B : Type} (f : nat -> A -> B) (l : list A) :
  forall k i, nth_error (mapi_from f k l) i
              = option_map (f (k + i)%nat) (nth_error l i).
Proof.
  induction l as [|a l IH]; intros k [|i]; cbn; try reflexivity.
  - now rewrite Nat.add_0_r.
  - rewrite IH. now rewrite Nat.add_succ_r.
Qed.

(** The cards after a call are the cards before, each through the loop
    body with the eased progresses of the current scrollProgress. *)
Lemma applyScrollAnimation_cards (s : CategoryCards) :
  exists enabled hovered,
    cards (applyScrollAnimation s)
    = mapi (animateCard enabled hovered
              (easeInOutCubic (flipProgress (scrollProgress s)))
              (easeInOutCubic (spreadProgress (scrollProgress s))))
           (cards s).
Proof.
  unfold applyScrollAnimation.
  destruct (cards s) as [|c l] eqn:Ec.
  - exists false, None. cbn. now rewrite Ec.
  - cbn [List.length Nat.eqb]. cbv zeta.
    destruct (_ && _); fields; rewrite Ec; eauto.
Qed.

Lemma Forall_applyScrollAnimation (P : Mesh -> Prop) (s : CategoryCards) :
  (forall enabled hovered ref card,
     In card (cards s) ->
     P (animateCard enabled hovered
          (easeInOutCubic (flipProgress (scrollProgress s)))
          (easeInOutCubic (spreadProgress (scrollProgress s))) ref card)) ->
  Forall P (cards (applyScrollAnimation s)).
Proof.
  intros H. destruct (applyScrollAnimation_cards s) as (e & h & ->).
  unfold mapi. apply Forall_mapi_from. intros j a Hin. now apply H.
Qed.

Lemma easeInOutCubic_1 : easeInOutCubic (Fin 1) === Fin 1.
Proof. vm_compute. reflexivity. Qed.

(** The eased flip progress of a finite scrollProgress. *)
Lemma easedFlip_Fin (q : Q) :
  exists e, easeInOutCubic (flipProgress (Fin q)) = Fin e /\
            (e <= 1)%Q /\
            ((0 <= q)%Q -> (0 <= e)%Q) /\
            ((0.4 <= q)%Q -> (e == 1)%Q) /\
            ((q == 0)%Q -> (e == 0)%Q).
Proof.
  rewrite flipProgress_Fin.
  destruct (Qle_bool 1 (q / 0.4)) eqn:E; qprops.
  - generalize easeInOutCubic_1.
    destruct (easeInOutCubic (Fin 1)) as [e| | |]; cbn [eqv]; try tauto.
    intros He. exists e. split; [reflexivity|].
    repeat split; intros; try lra. exfalso. qarith.
  - pose proof (@easeInOutCubic_le (q / 0.4) 1 (Qlt_le_weak _ _ E)) as Hm.
    generalize easeInOutCubic_1. revert Hm.
    destruct (easeInOutCubic (Fin 1)) as [e1| | |]; cbn [eqv]; try tauto.
    rewrite easeInOutCubic_Fin.
    destruct (Qlt_bool (q / 0.4) 0.5) eqn:Eh; qprops; cbn [le];
      intros Hm He1; qprops; eexists; (split; [reflexivity|]);
      (split; [lra|]); (split; [|split]).
    + intros Hq. assert (0 <= q / 0.4)%Q by qarith.
      pose proof (@cube_monotone 0 (q / 0.4)). lra.
    + intros Hq. exfalso. qarith.
    + intros Hq. rewrite Hq. reflexivity.
    + intros Hq.
      assert (H1 : in01 (Fin (q / 0.4))).
      { apply in01_Fin. split; [qarith | lra]. }
      apply easeInOutCubic_in01 in H1. rewrite easeInOutCubic_Fin in H1.
      assert (Eh' : Qlt_bool (q / 0.4) 0.5 = false).
      { unfold Qlt_bool. apply negb_false_iff. now apply Qle_bool_iff. }
      rewrite Eh' in H1. apply in01_Fin in H1. lra.
    + intros Hq. exfalso. qarith.
    + intros Hq. exfalso. qarith.
Qed.

(** The eased spread progress of a finite scrollProgress that the upper
    clamp of [animate] lets through. *)
Lemma easedSpread_Fin (q : Q) :
  (q <= 1)%Q ->
  exists e, easeInOutCubic (spreadProgress (Fin q)) = Fin e /\
            (0 <= e <= 1)%Q /\ ((q == 1)%Q -> (e == 1)%Q).
Proof.
  intros Hq.
  pose proof (easeInOutCubic_in01 (spreadProgress_in01 Hq)) as H.
  apply in01_inv in H. destruct H as (e & E & He).
  exists e. split; [exact E|]. split; [exact He|].
  intros H1. revert E. rewrite spreadProgress_Fin.
  destruct (Qle_bool ((q - 0.4) / 0.6) 0) eqn:E0; qprops;
    [exfalso; qarith|].
  rewrite easeInOutCubic_Fin.
  destruct (Qlt_bool ((q - 0.4) / 0.6) 0.5) eqn:E1; qprops;
    [exfalso; qarith|].
  intros [= <-]. rewrite H1. reflexivity.
Qed.

(** X3.  The flip never turns a card past its front face.  For every
    finite scrollProgress the committed [rotation.y] is non-negative; it is
    0 from scrollProgress 0.4 on, it is the initial rotation at 0, and it
    stays within the initial rotation for every non-negative progress. *)
Theorem flip_rotation_range (s : CategoryCards) (q r : Q) :
  (0 <= r)%Q ->
  Forall (fun card => initialRotation (userData card) = Fin r) (cards s) ->
  Forall (fun card =>
            exists y, Vector3.y (rotation card) = Fin y /\
                      (0 <= y)%Q /\
                      ((0.4 <= q)%Q -> (y == 0)%Q) /\
                      ((0 <= q)%Q -> (y <= r)%Q) /\
                      ((q == 0)%Q -> (y == r)%Q))
         (cards (applyScrollAnimation (set_scrollProgress s (Fin q)))).
Proof.
  intros Hr Hall. apply Forall_applyScrollAnimation.
  intros enabled hovered ref card Hin. fields.
  rewrite Forall_forall in Hall. specialize (Hall _ Hin).
  unfold animateCard. cbn [rotation Vector3.y]. rewrite Hall.
  destruct (easedFlip_Fin q) as (e & -> & H1 & H0 & H4 & Hz).
  cbn [sub mul]. eexists. split; [reflexivity|].
  split; [nra|]. split; [|split].
  - intros H. rewrite (H4 H). ring.
  - intros H. specialize (H0 H). nra.
  - intros H. rewrite (Hz H). ring.
Qed.

Lemma flip_rotation_range_witness :
  Forall (fun card =>
            exists y, Vector3.y (rotation card) = Fin y /\ (0 <= y)%Q /\
                      (y == 0)%Q)
         (cards (applyScrollAnimation
                   (set_scrollProgress Sample.booted (Fin 0.7)))).
Proof.
  assert (Hr : (0 <= 884279719003555 # 281474976710656)%Q)
    by (vm_compute; discriminate).
  assert (Hall : Forall (fun card => initialRotation (userData card)
                           = Fin (884279719003555 # 281474976710656))
                   (cards Sample.booted))
    by (repeat constructor).
  pose proof (@flip_rotation_range Sample.booted 0.7 _ Hr Hall) as H.
  eapply Forall_impl; [|exact H].
  intros card (y & E & H0 & H4 & _). exists y.
  split; [exact E|]. split; [exact H0|]. apply H4.
  vm_compute. discriminate.
Defined.

(** X4.  The spread never overshoots.  For every finite scrollProgress up
    to 1, negative ones included, each card's [position.x] lies between its
    [initialX] and its [targetX], and it is the [targetX] at 1. *)
Theorem spread_within_segment (s : CategoryCards) (q : Q) :
  (q <= 1)%Q ->
  Forall (fun card =>
            forall ix tx,
              initialX (userData card) = Fin ix ->
              targetX (userData card) = Fin tx ->
              exists x, Vector3.x (position card) = Fin x /\
                        ((ix <= tx)%Q -> (ix <= x <= tx)%Q) /\
                        ((tx <= ix)%Q -> (tx <= x <= ix)%Q) /\
                        ((q == 1)%Q -> (x == tx)%Q))
         (cards (applyScrollAnimation (set_scrollProgress s (Fin q)))).
Proof.
  intros Hq. apply Forall_applyScrollAnimation.
  intros enabled hovered ref card Hin. fields.
  unfold animateCard. cbn [position Vector3.x userData initialX targetX].
  intros ix tx -> ->.
  destruct (easedSpread_Fin Hq) as (e & -> & He & H1).
  cbn [sub mul add]. eexists. split; [reflexivity|].
  split; [|split].
  - intros H. split; nra.
  - intros H. split; nra.
  - intros H. rewrite (H1 H). ring.
Qed.

Lemma spread_within_segment_witness :
  (1 <= 1)%Q /\
  Forall (fun card =>
            forall ix tx,
              initialX (userData card) = Fin ix ->
              targetX (userData card) = Fin tx ->
              exists x, Vector3.x (position card) = Fin x /\ (x == tx)%Q)
         (cards (applyScrollAnimation
                   (set_scrollProgress Sample.booted (Fin 1)))).
Proof.
  assert (Hq : (1 <= 1)%Q) by (vm_compute; discriminate).
  split; [exact Hq|].
  pose proof (@spread_within_segment Sample.booted 1 Hq) as H.
  eapply Forall_impl; [|exact H].
  intros card Hc ix tx Ei Et.
  destruct (Hc ix tx Ei Et) as (x & E & _ & _ & H1).
  exists x. split; [exact E|]. apply H1. reflexivity.
Defined.

(* ================================================================== *)
(** ** What the handlers never write *)

Lemma same_static_refl (card : Mesh) : same_static card card.
Proof. unfold same_static. tauto. Qed.

Lemma same_static_trans (a b c : Mesh) :
  same_static a b -> same_static b c -> same_static a c.
Proof.
  unfold same_static. intros H1 H2.
  repeat match goal with H : _ /\ _ |- _ => destruct H end.
  repeat split; congruence.
Qed.

Lemma Forall2_same_static_refl (l : list Mesh) : Forall2 same_static l l.
Proof. induction l; constructor; auto using same_static_refl. Qed.

Lemma Forall2_same_static_trans (l1 l2 l3 : list Mesh) :
  Forall2 same_static l1 l2 -> Forall2 same_static l2 l3 ->
  Forall2 same_static l1 l3.
Proof.
  intros H. revert l3. induction H; intros l3 H3; inversion H3; subst;
    constructor; eauto using same_static_trans.
Qed.

Lemma Forall2_mapi_from {A B : Type} (R : A -> B -> Prop)
    (f : nat -> A -> B) (l : list A) :
  (forall j a, R a (f j a)) -> forall k, Forall2 R l (mapi_from f k l).
Proof. intros H. induction l; intros k; cbn; constructor; auto. Qed.

Lemma animateCard_same_static enabled hovered easedFlip easedSpread ref card :
  same_static card
    (animateCard enabled hovered easedFlip easedSpread ref card).
Proof. unfold same_static, animateCard. cbn. tauto. Qed.

Lemma applyScrollAnimation_same_static (s : CategoryCards) :
  Forall2 same_static (cards s) (cards (applyScrollAnimation s)).
Proof.
  destruct (applyScrollAnimation_cards s) as (e & h & ->).
  apply Forall2_mapi_from. intros. apply animateCard_same_static.
Qed.

(** Induction over the events of a run. *)
Lemma run_invariant (intersect : Vector2.t -> Camera -> list Mesh -> list nat)
    (P : CategoryCards -> Prop) :
  (forall s e, P s -> P (handle intersect s e)) ->
  forall events s, P s -> P (run intersect events s).
Proof.
  intros Hstep events. induction events as [|e events IH]; intros s H; cbn.
  - exact H.
  - apply IH, Hstep, H.
Qed.

Section Steady.

Variable Math_tan : number -> number.
Variable intersect : Vector2.t -> Camera -> list Mesh -> list nat.

Lemma cards_before_animation doc win (s : CategoryCards) :
  categories_section doc = None /\ animate intersect doc win s = s \/
  exists t, cards t = cards s /\
            cards (animate intersect doc win s)
            = cards (applyScrollAnimation t).
Proof.
  unfold animate. destruct (categories_section doc) eqn:Es; [right|now left].
  cbv zeta.
  match goal with
  | |- context [checkIntersections _ (applyScrollAnimation ?t)] =>
      exists t;
      destruct (checkIntersections_frame intersect (applyScrollAnimation t))
        as (E & _)
  end.
  split; [|exact E].
  destruct (updateSectionDimensions_scroll doc s) as (_ & _ & U).
  repeat match goal with
  | |- context [if ?b then _ else _] => destruct b
  | |- context [match stickyStartScroll ?o with _ => _ end] =>
      destruct (stickyStartScroll o)
  end; fields; auto.
Qed.

Lemma handle_cards (s : CategoryCards) (e : Event) :
  cards (handle intersect s e) = cards s \/
  exists t, cards t = cards s /\
            cards (handle intersect s e) = cards (applyScrollAnimation t).
Proof.
  destruct e; cbn [handle].
  - destruct (cards_before_animation doc win s) as [[_ ->]|H]; auto.
  - left. unfold onMouseMove. destruct (_ || _); fields; reflexivity.
  - left. unfold onMouseLeave.
    destruct (negb _); fields; reflexivity.
  - left. now rewrite onClick_state.
  - left. unfold onResize.
    destruct (renderer s); [|reflexivity].
    destruct (camera s); [|reflexivity].
    destruct (negb (container s)); [reflexivity|].
    unfold updateSectionDimensions.
    destruct (categories_section doc); fields; reflexivity.
Qed.

Lemma handle_same_static (s : CategoryCards) (e : Event) :
  Forall2 same_static (cards s) (cards (handle intersect s e)).
Proof.
  destruct (handle_cards s e) as [->|(t & Et & ->)].
  - apply Forall2_same_static_refl.
  - rewrite <- Et. apply applyScrollAnimation_same_static.
Qed.

Lemma run_same_static doc win (events : list Event) :
  Forall2 same_static
    (cards (boot Math_tan doc win))
    (cards (run intersect events (boot Math_tan doc win))).
Proof.
  apply (@run_invariant intersect
           (fun s => Forall2 same_static (cards (boot Math_tan doc win))
                       (cards s))).
  - intros s e H. eapply Forall2_same_static_trans; [exact H|].
    apply handle_same_static.
  - apply Forall2_same_static_refl.
Qed.

(** X5.  No event ever changes a card's identity or layout: through any
    run of the page each card keeps its [index], [categoryName],
    [targetX], [initialX], [initialRotation], [targetRotation], [baseZ],
    its [position.y] and its [rotation.x] and [rotation.z]; the handlers
    only move [position.x], [position.z], [rotation.y], the scale and the
    two hover fields. *)
Theorem static_fields_never_change doc win (events : list Event) :
  Forall2 same_static
    (cards (boot Math_tan doc win))
    (cards (run intersect events (boot Math_tan doc win))).
Proof. apply run_same_static. Qed.

End Steady.

(* ================================================================== *)
(** ** Card identity, cursor, progress bound, missing canvas *)

Lemma Forall2_nth_error_r {A B : Type} (R : A -> B -> Prop)
    (l : list A) (l' : list B) :
  Forall2 R l l' ->
  forall i b, nth_error l' i = Some b ->
              exists a, nth_error l i = Some a /\ R a b.
Proof.
  induction 1 as [|a b l l' Hab _ IH]; intros [|i] c E; cbn in *;
    try discriminate.
  - injection E as <-. eauto.
  - eauto.
Qed.

Lemma init_fresh doc :
  cards (init doc constructor) = [] /\
  hoveredCard (init doc constructor) = None /\
  scrollProgress (init doc constructor) = Fin 0 /\
  (forall r, renderer (init doc constructor) = Some r ->
             cursor r = cursor_default) /\
  (category_cards_container doc = None ->
   container (init doc constructor) = false /\
   renderer (init doc constructor) = None /\
   camera (init doc constructor) = None).
Proof.
  unfold init. destruct (category_cards_container doc).
  - unfold updateSectionDimensions.
    destruct (categories_section doc); fields;
      repeat split; auto; try discriminate; intros r [= <-]; reflexivity.
  - repeat split; auto; discriminate.
Qed.

Lemma Math_min_1_bound (a : number) : (Fin 1 <? Math_min (Fin 1) a) = false.
Proof.
  destruct a as [q| | |]; try reflexivity.
  unfold Math_min. cbn [le].
  destruct (Qle_bool 1 q) eqn:E; cbn [lt]; unfold Qlt_bool;
    apply negb_false_iff, Qle_bool_iff; qprops; lra.
Qed.

Section PageFacts.

Variable Math_tan : number -> number.
Variable intersect : Vector2.t -> Camera -> list Mesh -> list nat.

Lemma boot_cards doc win (i : nat) (card : Mesh) :
  nth_error (cards (boot Math_tan doc win)) i = Some card ->
  index (userData card) = i /\
  nth_error categories i = Some (categoryName (userData card)) /\
  initialX (userData card) = Fin 0 /\
  initialRotation (userData card) = Math_PI /\
  targetRotation (userData card) = Fin 0.
Proof.
  destruct (init_fresh doc) as (Hc & _).
  unfold boot, createCards. fields. rewrite Hc.
  cbn [app]. unfold mapi. rewrite nth_error_mapi_from.
  destruct (nth_error categories i) as [name|] eqn:En;
    cbn [option_map]; intros E; [|discriminate E].
  injection E as <-.
  cbn [userData index categoryName initialX initialRotation targetRotation
       Nat.add].
  repeat split; reflexivity.
Qed.

(** X6.  On the page the card at position [i] of the array carries
    [index = i] and the [i]-th category name, starts from abscissa 0 and
    from the back face (rotation pi); hence a dispatched click event names
    the hovered position and that position's category. *)
Theorem page_card_identity doc win (events : list Event) :
  let s := run intersect events (boot Math_tan doc win) in
  (forall i card,
     nth_error (cards s) i = Some card ->
     index (userData card) = i /\
     nth_error categories i = Some (categoryName (userData card)) /\
     initialX (userData card) = Fin 0 /\
     initialRotation (userData card) = Math_PI /\
     targetRotation (userData card) = Fin 0) /\
  (forall ev,
     In ev (snd (onClick s)) ->
     exists ref, hoveredCard s = Some ref /\
                 detail_index ev = ref /\
                 nth_error categories ref = Some (category ev)).
Proof.
  intros s.
  assert (H : forall i card,
     nth_error (cards s) i = Some card ->
     index (userData card) = i /\
     nth_error categories i = Some (categoryName (userData card)) /\
     initialX (userData card) = Fin 0 /\
     initialRotation (userData card) = Math_PI /\
     targetRotation (userData card) = Fin 0).
  { intros i card E.
    destruct (Forall2_nth_error_r (run_same_static Math_tan intersect
                                     doc win events) i E)
      as (card0 & E0 & Hs).
    destruct (boot_cards doc win i E0) as (A & B & C & D & F).
    unfold same_static in Hs.
    repeat match goal with H : _ /\ _ |- _ => destruct H end.
    repeat split; congruence. }
  split; [exact H|].
  intros ev. unfold onClick.
  destruct (_ || _); [intros []|].
  destruct (hoveredCard s) as [ref|]; [|intros []].
  destruct (nth_error (cards s) ref) as [card|] eqn:E; [|intros []].
  cbn [snd]. intros [<-|[]]. exists ref. cbn.
  destruct (H ref card E) as (A & B & _). auto.
Qed.

(** *** The cursor *)

Lemma cursor_after_clear (s : CategoryCards) :
  cursor_mirrors_hover (set_cursor (set_hoveredCard s None) cursor_default).
Proof.
  unfold cursor_mirrors_hover, set_cursor. fields.
  destruct (renderer s) as [r0|] eqn:Er; fields; rewrite ?Er;
    intros r E; [|discriminate E].
  injection E as <-. cbn. split; [reflexivity | congruence].
Qed.

Lemma cursor_after_pick (s : CategoryCards) (ref : nat) :
  cursor_mirrors_hover
    (set_cursor (set_hoveredCard s (Some ref)) cursor_pointer).
Proof.
  unfold cursor_mirrors_hover, set_cursor. fields.
  destruct (renderer s) as [r0|] eqn:Er; fields; rewrite ?Er;
    intros r E; [|discriminate E].
  injection E as <-. cbn. split; [discriminate | reflexivity].
Qed.

Lemma cursor_irrelevant (s t : CategoryCards) :
  hoveredCard t = hoveredCard s ->
  (forall r, renderer t = Some r ->
             exists r0, renderer s = Some r0 /\ cursor r = cursor r0) ->
  cursor_mirrors_hover s -> cursor_mirrors_hover t.
Proof.
  intros Eh Er H r E. destruct (Er r E) as (r0 & E0 & Ec).
  rewrite Eh, Ec. now apply H.
Qed.

Lemma cursor_applyScrollAnimation (s : CategoryCards) :
  cursor_mirrors_hover s -> cursor_mirrors_hover (applyScrollAnimation s).
Proof.
  intros H. unfold applyScrollAnimation.
  destruct (Nat.eqb (List.length (cards s)) 0); [exact H|]. cbv zeta.
  destruct (_ && _).
  - eapply cursor_irrelevant; [| |apply cursor_after_clear]; fields; eauto.
  - eapply cursor_irrelevant; [| |exact H]; fields; eauto.
Qed.

Lemma cursor_checkIntersections (s : CategoryCards) :
  cursor_mirrors_hover s ->
  cursor_mirrors_hover (checkIntersections intersect s).
Proof.
  intros H. unfold checkIntersections.
  destruct (negb (interactionsEnabled s)).
  { destruct (negb (is_null (hoveredCard s)));
      [apply cursor_after_clear | exact H]. }
  destruct (negb (mouseIsOver s)); [exact H|].
  destruct (camera s); [|exact H].
  destruct (_ || _); [exact H|].
  destruct (intersectObjects _ _ _ _) as [|newHovered rest].
  - destruct (negb (is_null (hoveredCard s)));
      [apply cursor_after_clear | exact H].
  - destruct (negb (same_mesh (hoveredCard s) newHovered)); [|exact H].
    apply cursor_after_pick.
Qed.

Lemma cursor_handle (s : CategoryCards) (e : Event) :
  cursor_mirrors_hover s -> cursor_mirrors_hover (handle intersect s e).
Proof.
  intros H. destruct e; cbn [handle].
  - unfold animate. destruct (categories_section doc); [|exact H].
    cbv zeta. apply cursor_checkIntersections, cursor_applyScrollAnimation.
    eapply cursor_irrelevant; [| |exact H];
      repeat match goal with
      | |- context [if ?b then _ else _] => destruct b
      | |- context [match stickyStartScroll ?o with _ => _ end] =>
          destruct (stickyStartScroll o)
      | |- context [updateSectionDimensions ?d ?t] =>
          unfold updateSectionDimensions; destruct (categories_section d)
      end; fields; eauto.
  - unfold onMouseMove. destruct (_ || _); [exact H|].
    eapply cursor_irrelevant; [| |exact H]; fields; eauto.
  - unfold onMouseLeave. fields.
    destruct (negb (is_null (hoveredCard s))) eqn:En.
    + apply cursor_after_clear.
    + eapply cursor_irrelevant; [| |exact H]; fields; eauto.
  - now rewrite onClick_state.
  - unfold onResize.
    destruct (renderer s) as [r0|] eqn:Er; [|exact H].
    destruct (camera s); [|exact H].
    destruct (negb (container s)); [exact H|].
    eapply cursor_irrelevant; [| |exact H];
      unfold updateSectionDimensions;
      destruct (categories_section doc); fields; auto;
      intros r [= <-]; eauto.
Qed.

(** X7.  The cursor over the canvas always tells the hover state: after
    any run of the page it is [pointer] exactly when a card is hovered and
    [default] exactly when none is. *)
Theorem cursor_follows_hover doc win (events : list Event) :
  cursor_mirrors_hover (run intersect events (boot Math_tan doc win)).
Proof.
  apply (@run_invariant intersect cursor_mirrors_hover).
  - exact cursor_handle.
  - destruct (init_fresh doc) as (_ & Hh & _ & Hr & _).
    unfold boot, createCards, cursor_mirrors_hover. fields.
    intros r E. rewrite Hh. split; [auto | congruence].
Qed.

(** *** The progress bound *)

Lemma animate_progress doc win (s : CategoryCards) :
  scrollProgress (animate intersect doc win s) = scrollProgress s \/
  scrollProgress (animate intersect doc win s) = Fin 0 \/
  exists a, scrollProgress (animate intersect doc win s)
            = Math_min (Fin 1) a.
Proof.
  destruct (categories_section doc) as [sec|] eqn:Es.
  2:{ left. unfold animate. now rewrite Es. }
  destruct (top (getBoundingClientRect sec) <=? Fin 0) eqn:Et.
  - right. right.
    destruct (animate_pinned intersect doc win s Es Et) as [_ E].
    cbv zeta in E. eauto.
  - right. left. unfold animate. rewrite Es, Et. cbv zeta.
    match goal with
    | |- context [checkIntersections _ ?t] =>
        destruct (checkIntersections_scroll intersect t) as [E1 _]
    end.
    rewrite E1.
    match goal with
    | |- context [applyScrollAnimation ?t] =>
        destruct (applyScrollAnimation_scroll t) as [E2 _]
    end.
    rewrite E2. reflexivity.
Qed.

Lemma handle_progress (s : CategoryCards) (e : Event) :
  (Fin 1 <? scrollProgress s) = false ->
  (Fin 1 <? scrollProgress (handle intersect s e)) = false.
Proof.
  intros H. destruct e; cbn [handle].
  - destruct (animate_progress doc win s) as [->|[->|[a ->]]];
      [exact H | reflexivity | apply Math_min_1_bound].
  - unfold onMouseMove. destruct (_ || _); fields; exact H.
  - unfold onMouseLeave. destruct (negb _); fields; exact H.
  - now rewrite onClick_state.
  - unfold onResize.
    destruct (renderer s); [|exact H].
    destruct (camera s); [|exact H].
    destruct (negb (container s)); [exact H|].
    unfold updateSectionDimensions.
    destruct (categories_section doc); fields; exact H.
Qed.

(** X8.  Whatever the scroll offsets, [scrollProgress] never exceeds 1 on
    the page: the upper clamp of [animate] holds through every run. *)
Theorem progress_never_above_one doc win (events : list Event) :
  (Fin 1 <? scrollProgress (run intersect events (boot Math_tan doc win)))
  = false.
Proof.
  apply (@run_invariant intersect
           (fun s => (Fin 1 <? scrollProgress s) = false)).
  - exact handle_progress.
  - destruct (init_fresh doc) as (_ & _ & Hp & _).
    unfold boot, createCards. fields. now rewrite Hp.
Qed.

(** *** A page without the canvas container *)

Lemma no_canvas_handle (s : CategoryCards) (e : Event) :
  no_canvas s -> no_canvas (handle intersect s e).
Proof.
  intros (Hc & Hr & Hm & Hh). destruct e; cbn [handle].
  - unfold animate. destruct (categories_section doc); [|now repeat split].
    cbv zeta.
    match goal with
    | |- no_canvas (checkIntersections _ (applyScrollAnimation ?t)) =>
        assert (Ht : no_canvas t)
    end.
    { repeat match goal with
      | |- context [if ?b then _ else _] => destruct b
      | |- context [match stickyStartScroll ?o with _ => _ end] =>
          destruct (stickyStartScroll o)
      | |- context [updateSectionDimensions ?d ?t] =>
          unfold updateSectionDimensions; destruct (categories_section d)
      end; unfold no_canvas; fields; auto. }
    match goal with
    | |- no_canvas (checkIntersections _ (applyScrollAnimation ?t)) =>
        assert (Ha : no_canvas (applyScrollAnimation t))
    end.
    { destruct Ht as (Tc & Tr & Tm & Th).
      unfold applyScrollAnimation.
      destruct (Nat.eqb _ 0); [now repeat split|]. cbv zeta.
      destruct (_ && _); unfold no_canvas, set_cursor; fields;
        rewrite ?Tr; fields; auto. }
    destruct Ha as (Ac & Ar & Am & Ah).
    unfold checkIntersections. rewrite Ah, Am. cbn [is_null negb].
    destruct (negb (interactionsEnabled _)); [now repeat split|].
    destruct (negb (mouseIsOver _)); now repeat split.
  - unfold onMouseMove. rewrite Hc. cbn. now repeat split.
  - unfold onMouseLeave. fields. rewrite Hh. cbn [is_null negb].
    unfold no_canvas. fields. auto.
  - rewrite onClick_state. now repeat split.
  - unfold onResize. rewrite Hr. now repeat split.
Qed.

(** X9.  When the page has no [category-cards-container], [init] returns
    early and the five cards are animated all the same, but through every
    run there is no renderer and no camera, no card is ever hovered and no
    click ever dispatches an event. *)
Theorem missing_container_never_interacts doc win (events : list Event) :
  category_cards_container doc = None ->
  let s := run intersect events (boot Math_tan doc win) in
  List.length (cards s) = 5%nat /\
  renderer s = None /\ camera s = None /\ hoveredCard s = None /\
  snd (onClick s) = [].
Proof.
  intros Hd s.
  assert (H : no_canvas s).
  { apply (@run_invariant intersect no_canvas).
    - exact no_canvas_handle.
    - destruct (init_fresh doc) as (_ & Hh & _ & _ & Hn).
      destruct (Hn Hd) as (A & B & C).
      unfold boot, createCards, no_canvas. fields. auto. }
  destruct H as (Hc & Hr & Hm & Hh).
  split; [exact (inv_cards (run_Inv Math_tan intersect doc win events))|].
  repeat split; auto.
  unfold onClick. rewrite Hr. cbn [is_null].
  now rewrite orb_true_r.
Qed.

End PageFacts.

Lemma page_card_identity_witness :
  exists card,
    nth_error
      (cards (run Sample.ray Sample.hover_events
                (boot Sample.tan (Sample.doc 300) (Sample.win 0)))) 2
    = Some card /\
    index (userData card) = 2%nat /\
    categoryName (userData card) = "Hockey"%string.
Proof.
  pose proof (page_card_identity Sample.tan Sample.ray (Sample.doc 300)
                (Sample.win 0) Sample.hover_events) as H.
  cbv zeta in H. destruct H as [H _].
  assert (E : exists card,
            nth_error
              (cards (run Sample.ray Sample.hover_events
                        (boot Sample.tan (Sample.doc 300) (Sample.win 0)))) 2
            = Some card).
  { vm_compute. eexists. reflexivity. }
  destruct E as (card & E). exists card. split; [exact E|].
  destruct (H 2%nat card E) as (A & B & _).
  split; [exact A|]. cbn in B. congruence.
Defined.

Lemma cursor_follows_hover_witness :
  exists r,
    renderer (run Sample.ray Sample.hover_events
                (boot Sample.tan (Sample.doc 300) (Sample.win 0))) = Some r /\
    hoveredCard (run Sample.ray Sample.hover_events
                   (boot Sample.tan (Sample.doc 300) (Sample.win 0)))
    <> None /\
    cursor r = cursor_pointer.
Proof.
  pose proof (cursor_follows_hover Sample.tan Sample.ray (Sample.doc 300)
                (Sample.win 0) Sample.hover_events) as H.
  assert (E : exists r,
            renderer (run Sample.ray Sample.hover_events
                        (boot Sample.tan (Sample.doc 300) (Sample.win 0)))
            = Some r).
  { vm_compute. eexists. reflexivity. }
  destruct E as (r & E).
  assert (Hh : hoveredCard
                 (run Sample.ray Sample.hover_events
                    (boot Sample.tan (Sample.doc 300) (Sample.win 0)))
               <> None)
    by (vm_compute; discriminate).
  exists r. split; [exact E|]. split; [exact Hh|].
  exact (proj2 (H r E) Hh).
Defined.

Lemma missing_container_never_interacts_witness :
  category_cards_container (Bare.doc 300) = None /\
  interactionsEnabled
    (run Sample.ray Bare.events
       (boot Sample.tan (Bare.doc 300) (Sample.win 0))) = true /\
  hoveredCard
    (run Sample.ray Bare.events
       (boot Sample.tan (Bare.doc 300) (Sample.win 0))) = None /\
  snd (onClick
         (run Sample.ray Bare.events
            (boot Sample.tan (Bare.doc 300) (Sample.win 0)))) = [].
Proof.
  pose proof (missing_container_never_interacts Sample.tan Sample.ray
                (Bare.doc 300) (Sample.win 0) Bare.events eq_refl) as H.
  cbv zeta in H. destruct H as (_ & _ & _ & A & B).
  split; [reflexivity|]. split; [vm_compute; reflexivity|].
  split; [exact A | exact B].
Defined.

(* ================================================================== *)
(** ** The anchor of the pinned phase *)

Section Anchor.

Variable Math_tan : number -> number.
Variable intersect : Vector2.t -> Camera -> list Mesh -> list nat.

(** X10.  The anchor lives exactly as long as the section is pinned.  A
    pinned frame keeps a recorded anchor; the first pinned frame records
    the current scroll offset and starts the progress at 0, wherever the
    page is scrolled; an unpinned frame forgets the anchor, so that the
    next pinning restarts from 0. *)
Theorem anchor_lifecycle doc win (events : list Event) :
  let s := run intersect events (boot Math_tan doc win) in
  (forall doc' win' sec a,
     categories_section doc' = Some sec ->
     (top (getBoundingClientRect sec) <=? Fin 0) = true ->
     stickyStartScroll s = Some a ->
     stickyStartScroll (animate intersect doc' win' s) = Some a) /\
  (forall doc' win' sec c,
     categories_section doc' = Some sec ->
     (top (getBoundingClientRect sec) <=? Fin 0) = true ->
     stickyStartScroll s = None ->
     or_else (scrollY win') (pageYOffset win') = Fin c ->
     stickyStartScroll (animate intersect doc' win' s) = Some (Fin c) /\
     scrollProgress (animate intersect doc' win' s) === Fin 0) /\
  (forall doc' win' sec,
     categories_section doc' = Some sec ->
     (top (getBoundingClientRect sec) <=? Fin 0) = false ->
     stickyStartScroll (animate intersect doc' win' s) = None).
Proof.
  intros s.
  pose proof (run_Inv Math_tan intersect doc win events) as HI.
  fold s in HI. split; [|split].
  - intros doc' win' sec a Es Ht Ea.
    destruct (animate_pinned intersect doc' win' s Es Ht) as [E _].
    cbv zeta in E. rewrite E. unfold sticky_anchor. now rewrite Ea.
  - intros doc' win' sec c Es Ht Ea Ec.
    destruct (animate_pinned intersect doc' win' s Es Ht) as [E1 E2].
    cbv zeta in E1, E2. rewrite E1, E2. unfold sticky_anchor.
    rewrite Ea, Ec, (inv_distance HI). split; [reflexivity|].
    cbn [sub]. rewrite div_Fin by (intros E; discriminate E).
    unfold Math_min. cbn [le].
    destruct (Qle_bool 1 ((c - c) / 3200)) eqn:E; qprops; cbn [eqv];
      qarith.
  - intros doc' win' sec Es Ht.
    now destruct (animate_unpinned intersect doc' win' Es Ht HI)
      as (_ & A & _).
Qed.

End Anchor.

Lemma anchor_lifecycle_witness :
  let s := animate Sample.ray (Sample.doc 300) (Sample.win 900)
             (run Sample.ray Sample.hover_events
                (boot Sample.tan (Sample.doc 300) (Sample.win 0))) in
  stickyStartScroll
    (run Sample.ray Sample.hover_events
       (boot Sample.tan (Sample.doc 300) (Sample.win 0)))
  = Some (Fin 1000) /\
  stickyStartScroll s = None /\
  stickyStartScroll
    (animate Sample.ray (Sample.doc 0) (Sample.win 1234)
       (run Sample.ray (Sample.hover_events
                        ++ [Frame (Sample.doc 300) (Sample.win 900)])
          (boot Sample.tan (Sample.doc 300) (Sample.win 0))))
  = Some (Fin 1234).
Proof.
  pose proof (anchor_lifecycle Sample.tan Sample.ray (Sample.doc 300)
                (Sample.win 0) Sample.hover_events) as H.
  pose proof (anchor_lifecycle Sample.tan Sample.ray (Sample.doc 300)
                (Sample.win 0)
                (Sample.hover_events
                 ++ [Frame (Sample.doc 300) (Sample.win 900)])) as H'.
  cbv zeta in H, H'. destruct H as (_ & _ & C). destruct H' as (_ & B & _).
  cbv zeta. split; [vm_compute; reflexivity|]. split.
  - exact (C (Sample.doc 300) (Sample.win 900) (Sample.section_el 300)
             eq_refl eq_refl).
  - refine (proj1 (B (Sample.doc 0) (Sample.win 1234) (Sample.section_el 0)
                     1234 eq_refl eq_refl _ eq_refl)).
    vm_compute. reflexivity.
Defined.

(* ================================================================== *)
(** ** Pointer coordinates and picking *)

(** X11.  A pointer inside a canvas of positive size gets normalized
    device coordinates within [-1, 1] on both axes, with the vertical axis
    flipped: the left and top edges map to x = -1 and y = +1, the right
    and bottom edges to x = +1 and y = -1; the pointer is then known to be
    over the canvas. *)
Theorem onMouseMove_normalizes (s : CategoryCards)
    (cx cy l t w h : Q) :
  container s = true -> renderer s <> None ->
  (0 < w)%Q -> (0 < h)%Q ->
  (l <= cx <= l + w)%Q -> (t <= cy <= t + h)%Q ->
  let s' := onMouseMove {| clientX := Fin cx; clientY := Fin cy |}
              {| top := Fin t; left := Fin l;
                 width := Fin w; height := Fin h |} s in
  mouseIsOver s' = true /\
  exists x y,
    mouse s' = {| Vector2.x := Fin x; Vector2.y := Fin y |} /\
    (-1 <= x <= 1)%Q /\ (-1 <= y <= 1)%Q /\
    ((cx == l)%Q -> (x == -1)%Q) /\ ((cx == l + w)%Q -> (x == 1)%Q) /\
    ((cy == t)%Q -> (y == 1)%Q) /\ ((cy == t + h)%Q -> (y == -1)%Q).
Proof.
  intros Hc Hr Hw Hh Hx Hy. unfold onMouseMove. rewrite Hc.
  destruct (renderer s) as [r|]; [|congruence]. cbn [negb orb is_null].
  fields. split; [reflexivity|].
  cbn [clientX clientY left top width height sub].
  rewrite !div_Fin by lra. cbn [neg mul sub add].
  eexists. eexists. split; [reflexivity|].
  assert (Hiw : (0 < / w)%Q) by now apply Qinv_lt_0_compat.
  assert (Hih : (0 < / h)%Q) by now apply Qinv_lt_0_compat.
  assert (Ew : (w * / w == 1)%Q) by (apply Qmult_inv_r; lra).
  assert (Eh : (h * / h == 1)%Q) by (apply Qmult_inv_r; lra).
  unfold Qdiv.
  assert (0 <= (cx - l) * / w)%Q by (apply Qmult_le_0_compat; lra).
  assert (0 <= (l + w - cx) * / w)%Q by (apply Qmult_le_0_compat; lra).
  assert (0 <= (cy - t) * / h)%Q by (apply Qmult_le_0_compat; lra).
  assert (0 <= (t + h - cy) * / h)%Q by (apply Qmult_le_0_compat; lra).
  repeat split; try lra.
  - intros E. rewrite E. setoid_replace (l - l)%Q with 0%Q by ring. lra.
  - intros E. rewrite E. setoid_replace (l + w - l)%Q with w by ring. lra.
  - intros E. rewrite E. setoid_replace (t - t)%Q with 0%Q by ring. lra.
  - intros E. rewrite E. setoid_replace (t + h - t)%Q with h by ring. lra.
Qed.

Lemma onMouseMove_normalizes_witness :
  mouseIsOver
    (onMouseMove {| clientX := Fin 600; clientY := Fin 300 |}
       {| top := Fin 0; left := Fin 0;
          width := Fin 1200; height := Fin 600 |} Sample.booted) = true /\
  exists x y,
    mouse
      (onMouseMove {| clientX := Fin 600; clientY := Fin 300 |}
         {| top := Fin 0; left := Fin 0;
            width := Fin 1200; height := Fin 600 |} Sample.booted)
    = {| Vector2.x := Fin x; Vector2.y := Fin y |} /\
    (-1 <= x <= 1)%Q /\ (-1 <= y <= 1)%Q.
Proof.
  assert (Hc : container Sample.booted = true) by (vm_compute; reflexivity).
  assert (Hr : renderer Sample.booted <> None) by (vm_compute; discriminate).
  assert (Hw : (0 < 1200)%Q) by reflexivity.
  assert (Hh : (0 < 600)%Q) by reflexivity.
  assert (Hx : (0 <= 600 <= 0 + 1200)%Q) by (split; vm_compute; discriminate).
  assert (Hy : (0 <= 300 <= 0 + 600)%Q) by (split; vm_compute; discriminate).
  destruct (@onMouseMove_normalizes Sample.booted 600 300 0 0 1200 600
              Hc Hr Hw Hh Hx Hy) as (A & x & y & E & Bx & By & _).
  split; [exact A|]. exists x, y. auto.
Defined.

Lemma same_mesh_true (h : option nat) (ref : nat) :
  same_mesh h ref = true -> h = Some ref.
Proof.
  destruct h as [i|]; cbn; [|discriminate].
  intros E. apply Nat.eqb_eq in E. now subst.
Qed.

Section Picking.

Variable Math_tan : number -> number.
Variable intersect : Vector2.t -> Camera -> list Mesh -> list nat.

(** X12.  When interactions are enabled and the pointer is over the
    canvas, a pick leaves hovered exactly the nearest card the ray hits,
    and none when it hits none; the hovered reference designates one of
    the cards. *)
Theorem checkIntersections_picks_nearest (s : CategoryCards) (cam : Camera) :
  interactionsEnabled s = true -> mouseIsOver s = true ->
  camera s = Some cam -> raycaster s = true -> cards s <> [] ->
  let hits := intersectObjects intersect (mouse s) cam (cards s) in
  hoveredCard (checkIntersections intersect s) = hd_error hits /\
  (forall ref, hoveredCard (checkIntersections intersect s) = Some ref ->
               (ref < List.length (cards s))%nat).
Proof.
  intros He Ho Hc Hr Hn hits.
  assert (E : hoveredCard (checkIntersections intersect s) = hd_error hits).
  { unfold checkIntersections. rewrite He, Ho, Hc, Hr.
    cbn [negb orb].
    assert (El : Nat.eqb (List.length (cards s)) 0 = false)
      by (destruct (cards s); [congruence | reflexivity]).
    rewrite El. cbv zeta. fold hits.
    destruct hits as [|newHovered rest]; cbn [hd_error].
    - destruct (hoveredCard s) eqn:Eh; cbn [is_null negb]; fields; auto.
    - destruct (same_mesh (hoveredCard s) newHovered) eqn:Es; cbn [negb];
        fields; [|reflexivity].
      now apply same_mesh_true. }
  split; [exact E|].
  intros ref Href. rewrite E in Href.
  destruct hits as [|r rest] eqn:Eh; cbn in Href; [discriminate|].
  injection Href as ->. unfold hits in Eh.
  now apply intersectObjects_head in Eh.
Qed.

(** X13.  On the page the two variants of [checkIntersections] kept in the
    repository do the same: they only differ when a card is hovered while
    the pointer is outside the canvas, which never happens. *)
Theorem checkIntersections_variants_agree doc win (events : list Event) :
  let s := run intersect events (boot Math_tan doc win) in
  Earlier.checkIntersections intersect s = checkIntersections intersect s.
Proof.
  intros s.
  pose proof (run_Inv Math_tan intersect doc win events) as HI.
  fold s in HI.
  unfold Earlier.checkIntersections, checkIntersections.
  destruct (interactionsEnabled s) eqn:He; cbn [negb orb].
  - destruct (mouseIsOver s) eqn:Ho; cbn [negb]; [reflexivity|].
    destruct (inv_over HI Ho) as [Hh _]. now rewrite Hh.
  - destruct (hoveredCard s); cbn [is_null negb]; [|reflexivity].
    unfold set_cursor. cbn. destruct (renderer s); reflexivity.
Qed.

End Picking.

Lemma checkIntersections_picks_nearest_witness :
  hoveredCard
    (checkIntersections Sample.ray
       (set_hoveredCard
          (run Sample.ray Sample.hover_events
             (boot Sample.tan (Sample.doc 300) (Sample.win 0)))
          (Some 4%nat)))
  = Some 2%nat.
Proof.
  assert (Hc : exists cam,
            camera (set_hoveredCard
                      (run Sample.ray Sample.hover_events
                         (boot Sample.tan (Sample.doc 300) (Sample.win 0)))
                      (Some 4%nat)) = Some cam).
  { vm_compute. eexists. reflexivity. }
  destruct Hc as (cam & Hc).
  refine (eq_trans
            (proj1 (@checkIntersections_picks_nearest Sample.ray _ cam
                      _ _ Hc _ _)) _);
    try (vm_compute; reflexivity).
  vm_compute. discriminate.
Defined.

(* ================================================================== *)
(** ** Direction of the hover feedback *)



Section Feedback.

Variable Math_tan : number -> number.
Variable intersect : Vector2.t -> Camera -> list Mesh -> list nat.


End Feedback.


(* ================================================================== *)
(** ** The layout [createCards] computes *)

Section Layout.

Variable Math_tan : number -> number.

Lemma createCards_targetX (el : Element) (win : Window) (s : CategoryCards)
    (i : nat) (card : Mesh) :
  cards s = [] ->
  nth_error (cards (createCards Math_tan el win s)) i = Some card ->
  nth_error categories i <> None /\
  targetX (userData card)
  = ((of_nat i - (of_nat (List.length categories) - Fin 1) / Fin 2)
     * (Fin 1.5
        * CARD_SCALE_of
            (calculateVisibleWidth Math_tan (Fin 20) (Fin 45)
               (aspect_of el win s))
        * (Fin 1 + Fin 0.2)))%js.
Proof.
  intros Hc. unfold createCards. fields. rewrite Hc. cbn [app].
  unfold mapi. rewrite nth_error_mapi_from.
  destruct (nth_error categories i) as [name|] eqn:En;
    cbn [option_map]; intros E; [|discriminate E].
  injection E as <-. split; [discriminate | reflexivity].
Qed.

(** The targets in the exact model. *)
Lemma createCards_targets (el : Element) (win : Window)
    (s : CategoryCards) (v : Q) :
  calculateVisibleWidth Math_tan (Fin 20) (Fin 45) (aspect_of el win s)
  = Fin v ->
  (0 <= v)%Q -> cards s = [] ->
  exists scale,
    CARD_SCALE_of (Fin v) = Fin scale /\
    card_width_of (Fin v) === Fin (1.5 * scale) /\
    (0 <= scale <= 5)%Q /\
    forall i card,
      nth_error (cards (createCards Math_tan el win s)) i = Some card ->
      exists tx,
        targetX (userData card) = Fin tx /\
        (tx == (inject_Z (Z.of_nat i) - 2) * (1.8 * scale))%Q /\
        (- (0.425 * v) <= tx - 0.75 * scale)%Q /\
        (tx + 0.75 * scale <= 0.425 * v)%Q.
Proof.
  intros Hv H0 Hc.
  assert (Es : exists scale, CARD_SCALE_of (Fin v) = Fin scale /\
                 (0 <= scale <= 5)%Q /\ (8.7 * scale <= 0.85 * v)%Q).
  { unfold CARD_SCALE_of. cbn [mul add].
    rewrite div_Fin by (intros E; discriminate E).
    unfold Math_min. cbn [le].
    assert (Ed : (1.5 * (4 * (1 + 0.2) + 1) == 8.7)%Q) by reflexivity.
    destruct (Qle_bool 5 _) eqn:E; qprops; eexists;
      (split; [reflexivity|]); rewrite Ed in *;
      unfold Qdiv in *; cbn [Qinv Qnum Qden] in *;
      (split; [split|]); lra. }
  destruct Es as (scale & Es & Hs & Hfit).
  exists scale. split; [exact Es|]. split.
  { unfold card_width_of. rewrite Es. cbn. reflexivity. }
  split; [exact Hs|].
  intros i card E.
  destruct (createCards_targetX el win s i Hc E) as (En & ->).
  rewrite Hv, Es. unfold of_nat. cbn [categories List.length sub add mul].
  rewrite div_Fin by (intros E0; discriminate E0). cbn [sub mul].
  eexists. split; [reflexivity|].
  assert (Hi : (i < 5)%nat) by (apply nth_error_Some in En; exact En).
  assert (Hz : (0 <= inject_Z (Z.of_nat i) <= 4)%Q).
  { split.
    - change 0%Q with (inject_Z 0). rewrite <- Zle_Qle. lia.
    - change 4%Q with (inject_Z 4). rewrite <- Zle_Qle. lia. }
  set (k := inject_Z (Z.of_nat i)) in *.
  change (inject_Z (Z.of_nat 5)) with 5%Q.
  assert (Hk0 : (0 <= k * scale)%Q) by (apply Qmult_le_0_compat; lra).
  assert (Hk4 : (0 <= (4 - k) * scale)%Q) by (apply Qmult_le_0_compat; lra).
  unfold Qdiv. cbn [Qinv Qnum Qden].
  split; [ring|]. split; lra.
Qed.

Lemma inject_Z_nat_le (i j : nat) :
  (i <= j)%nat -> (inject_Z (Z.of_nat i) <= inject_Z (Z.of_nat j))%Q.
Proof. intros H. rewrite <- Zle_Qle. lia. Qed.

Lemma inject_Z_nat_sum4 (i j : nat) :
  (i + j = 4)%nat ->
  (inject_Z (Z.of_nat i) + inject_Z (Z.of_nat j) == 4)%Q.
Proof.
  intros H. rewrite <- inject_Z_plus, <- Nat2Z.inj_add, H. reflexivity.
Qed.

(** X15.  When the visible width is a number not below 1, [createCards]
    takes a scale between 0 and 5 (a card width between 0 and 7.5), lays
    the five targets out in index order and mirrored about 0
    ([targetX] of card [i] is minus that of card [4 - i]), and every
    card's footprint, its target plus or minus half the card width, lies
    within the visible width. *)
Theorem createCards_layout_fits (el : Element) (win : Window)
    (s : CategoryCards) (v : Q) :
  calculateVisibleWidth Math_tan (Fin 20) (Fin 45) (aspect_of el win s)
  = Fin v ->
  (1 <= v)%Q -> cards s = [] ->
  exists scale w,
    CARD_SCALE_of (Fin v) = Fin scale /\ card_width_of (Fin v) = Fin w /\
    (0 <= scale <= 5)%Q /\ (0 <= w <= 7.5)%Q /\
    (forall i card tx,
       nth_error (cards (createCards Math_tan el win s)) i = Some card ->
       targetX (userData card) = Fin tx ->
       (- (v / 2) <= tx - w / 2)%Q /\ (tx + w / 2 <= v / 2)%Q) /\
    (forall i j ci cj txi txj,
       nth_error (cards (createCards Math_tan el win s)) i = Some ci ->
       nth_error (cards (createCards Math_tan el win s)) j = Some cj ->
       targetX (userData ci) = Fin txi ->
       targetX (userData cj) = Fin txj ->
       ((i <= j)%nat -> (txi <= txj)%Q) /\
       ((i + j = 4)%nat -> (txi + txj == 0)%Q)).
Proof.
  intros Hv H1 Hc.
  assert (H0 : (0 <= v)%Q) by lra.
  destruct (createCards_targets el win s Hv H0 Hc)
    as (scale & Es & Ew & Hs & Ht).
  exists scale, (1.5 * scale)%Q.
  split; [exact Es|]. split.
  { unfold card_width_of. rewrite Es. reflexivity. }
  split; [exact Hs|]. split; [lra|]. split.
  - intros i card tx E Etx.
    destruct (Ht i card E) as (tx' & Etx' & _ & Hlo & Hhi).
    rewrite Etx in Etx'. injection Etx' as <-.
    unfold Qdiv. cbn [Qinv Qnum Qden]. lra.
  - intros i j ci cj txi txj Ei Ej Eti Etj.
    destruct (Ht i ci Ei) as (ti & Eti' & Hi & _).
    destruct (Ht j cj Ej) as (tj & Etj' & Hj & _).
    rewrite Eti in Eti'. injection Eti' as <-.
    rewrite Etj in Etj'. injection Etj' as <-.
    split.
    + intros Hij. pose proof (inject_Z_nat_le Hij) as Hk.
      rewrite Hi, Hj.
      assert (0 <= (inject_Z (Z.of_nat j) - inject_Z (Z.of_nat i))
                   * (1.8 * scale))%Q
        by (apply Qmult_le_0_compat; lra).
      lra.
    + intros Hij. pose proof (inject_Z_nat_sum4 i j Hij) as Hk.
      rewrite Hi, Hj.
      setoid_replace
        ((inject_Z (Z.of_nat i) - 2) * (1.8 * scale)
         + (inject_Z (Z.of_nat j) - 2) * (1.8 * scale))%Q
        with ((inject_Z (Z.of_nat i) + inject_Z (Z.of_nat j) - 4)
              * (1.8 * scale))%Q by ring.
      rewrite Hk. ring.
Qed.

End Layout.

Lemma createCards_layout_fits_witness :
  exists v scale,
    calculateVisibleWidth Sample.tan (Fin 20) (Fin 45)
      (aspect_of Sample.container_el (Sample.win 0)
         (init (Sample.doc 300) constructor)) = Fin v /\
    (1 <= v)%Q /\
    CARD_SCALE_of (Fin v) = Fin scale /\ (0 <= scale <= 5)%Q.
Proof.
  assert (Hv : exists v,
            calculateVisibleWidth Sample.tan (Fin 20) (Fin 45)
              (aspect_of Sample.container_el (Sample.win 0)
                 (init (Sample.doc 300) constructor)) = Fin v /\
            (1 <= v)%Q).
  { vm_compute. eexists. split; [reflexivity|discriminate]. }
  destruct Hv as (v & Hv & H1).
  destruct (@createCards_layout_fits Sample.tan Sample.container_el
              (Sample.win 0) (init (Sample.doc 300) constructor) v
              Hv H1 eq_refl) as (scale & w & Es & _ & Hs & _).
  exists v, scale. auto.
Defined.

(* ================================================================== *)
(** ** The page script *)

Lemma clamp_offset_range (a : number) :
  finite a ->
  between (-1.5)
    (Math_max (neg ThreeSetup.MAX_MOUSE_OFFSET)
       (Math_min ThreeSetup.MAX_MOUSE_OFFSET a)) 1.5.
Proof.
  destruct a as [q| | |]; try contradiction. intros _.
  unfold ThreeSetup.MAX_MOUSE_OFFSET, Math_min. cbn [le neg].
  destruct (Qle_bool 1.5 q) eqn:E1; qprops.
  - vm_compute. split; reflexivity.
  - unfold Math_max. cbn [le]. qcases; apply between_Fin; lra.
Qed.

Lemma clamp_offset_inactive (q : Q) :
  (-1.5 <= q <= 1.5)%Q ->
  Math_max (neg ThreeSetup.MAX_MOUSE_OFFSET)
    (Math_min ThreeSetup.MAX_MOUSE_OFFSET (Fin q)) === Fin q.
Proof.
  intros Hq. unfold ThreeSetup.MAX_MOUSE_OFFSET, Math_min. cbn [le neg].
  destruct (Qle_bool 1.5 q) eqn:E1; qprops; unfold Math_max; cbn [le];
    qcases; cbn [eqv]; lra.
Qed.

Section Script.

Variable Math_tan : number -> number.
Variable Math_cos : number -> number.
Variable Math_sin : number -> number.
Variable intersect : Vector2.t -> Camera -> list Mesh -> list nat.

Lemma play_app (e1 e2 : list ThreeSetup.PageEvent) (g : ThreeSetup.Globals) :
  ThreeSetup.play Math_cos Math_sin intersect (e1 ++ e2) g = ThreeSetup.play Math_cos Math_sin intersect e2 (ThreeSetup.play Math_cos Math_sin intersect e1 g).
Proof. apply fold_left_app. Qed.

Lemma play_invariant (P : ThreeSetup.Globals -> Prop)
    (Q : ThreeSetup.PageEvent -> Prop) :
  (forall g e, Q e -> P g ->
               P (ThreeSetup.deliver Math_cos Math_sin intersect g e)) ->
  forall events g, Forall Q events -> P g -> P (ThreeSetup.play Math_cos Math_sin intersect events g).
Proof.
  intros Hstep events. induction events as [|e events IH];
    intros g HQ H; cbn.
  - exact H.
  - inversion HQ; subst. apply IH; [assumption|]. now apply Hstep.
Qed.

(** The gap in the exact model. *)
Lemma scroll_gap_exact (events : list ThreeSetup.PageEvent)
    (g : ThreeSetup.Globals) (y t : Q) :
  Forall ThreeSetup.is_frame events ->
  ThreeSetup.scrollY g = Fin y -> ThreeSetup.targetScrollY g = Fin t ->
  ThreeSetup.targetScrollY (ThreeSetup.play Math_cos Math_sin intersect events g) = Fin t /\
  exists y',
    ThreeSetup.scrollY (ThreeSetup.play Math_cos Math_sin intersect events g) = Fin y' /\
    (t - y' == qpow 0.95 (List.length events) * (t - y))%Q /\
    ((y <= t)%Q -> (y <= y' <= t)%Q) /\
    ((t <= y)%Q -> (t <= y' <= y)%Q).
Proof.
  intros Hf. revert g y.
  induction events as [|e events IH]; intros g y Ey Et.
  - cbn. split; [exact Et|]. exists y. split; [exact Ey|].
    split; [ring|]. split; intros; lra.
  - inversion Hf as [|e' l He Hl]; subst.
    destruct e; try contradiction.
    change (ThreeSetup.play Math_cos Math_sin intersect (ThreeSetup.AnimationFrame now doc win :: events) g)
      with (ThreeSetup.play Math_cos Math_sin intersect events (ThreeSetup.animate Math_cos Math_sin intersect now doc win g)).
    destruct (IH Hl (ThreeSetup.animate Math_cos Math_sin intersect now doc win g) (y + (t - y) * 0.05)%Q)
      as (Et' & y' & Ey' & Hgap & Hup & Hdown).
    + cbn [ThreeSetup.animate ThreeSetup.scrollY]. rewrite Ey, Et.
      reflexivity.
    + cbn [ThreeSetup.animate ThreeSetup.targetScrollY]. exact Et.
    + split; [exact Et'|]. exists y'. split; [exact Ey'|].
      pose proof (@qpow_pos 0.95 (List.length events) eq_refl) as Hp.
      assert (Hq : (qpow 0.95 (List.length events) <= 1)%Q).
      { pose proof (@qpow_antitone 0.95 0 (List.length events)
                      eq_refl) as Ha.
        rewrite Nat.add_0_r in Ha. apply Ha. discriminate. }
      cbn [List.length qpow]. split; [rewrite Hgap; ring|].
      split; intros H.
      * assert (y + (t - y) * 0.05 <= t)%Q by lra.
        specialize (Hup ltac:(assumption)). lra.
      * assert (t <= y + (t - y) * 0.05)%Q by lra.
        specialize (Hdown ltac:(assumption)). lra.
Qed.

(** X16.  The scroll smoothing never overshoots: with no scroll event in
    between, any number of frames leaves [targetScrollY] alone and the
    smoothed [scrollY] between its starting value and the target, on the
    side it started from. *)
Theorem scroll_smoothing_no_overshoot (events : list ThreeSetup.PageEvent)
    (g : ThreeSetup.Globals) (y t : Q) :
  Forall ThreeSetup.is_frame events ->
  ThreeSetup.scrollY g = Fin y -> ThreeSetup.targetScrollY g = Fin t ->
  ThreeSetup.targetScrollY
    (ThreeSetup.play Math_cos Math_sin intersect events g) = Fin t /\
  exists y',
    ThreeSetup.scrollY
      (ThreeSetup.play Math_cos Math_sin intersect events g) = Fin y' /\
    ((y <= t)%Q -> (y <= y' <= t)%Q) /\
    ((t <= y)%Q -> (t <= y' <= y)%Q).
Proof.
  intros Hf Ey Et.
  destruct (@scroll_gap_exact events g y t Hf Ey Et)
    as (Et' & y' & Ey' & _ & Hup & Hdown).
  split; [exact Et'|]. exists y'. auto.
Qed.

(** X17.  After every frame the camera offsets lie within
    [MAX_MOUSE_OFFSET]: for finite pointer values and finite previous
    offsets, [targetCameraX] and [targetCameraY] are in [-1.5, 1.5]; the
    camera sits at that x, at depth 8, and looks at half the offset. *)
Theorem camera_offsets_clamped now doc win (g : ThreeSetup.Globals) :
  finite (ThreeSetup.mouseX g) -> finite (ThreeSetup.mouseY g) ->
  finite (ThreeSetup.targetCameraX g) ->
  finite (ThreeSetup.targetCameraY g) ->
  let g' := ThreeSetup.animate Math_cos Math_sin intersect now doc win g in
  between (-1.5) (ThreeSetup.targetCameraX g') 1.5 /\
  between (-1.5) (ThreeSetup.targetCameraY g') 1.5 /\
  Vector3.x (ThreeSetup.camera_position g') = ThreeSetup.targetCameraX g' /\
  Vector3.z (ThreeSetup.camera_position g') = Fin 8 /\
  Vector3.x (ThreeSetup.camera_lookAt g')
  = (ThreeSetup.targetCameraX g' * Fin 0.5)%js.
Proof.
  intros Hmx Hmy Htx Hty.
  cbn [ThreeSetup.animate ThreeSetup.targetCameraX ThreeSetup.targetCameraY
       ThreeSetup.camera_position ThreeSetup.camera_lookAt
       Vector3.x Vector3.z].
  split; [|split; [|repeat split]]; apply clamp_offset_range.
  - destruct (ThreeSetup.mouseX g), (ThreeSetup.targetCameraX g);
      try contradiction. exact I.
  - destruct (ThreeSetup.mouseY g), (ThreeSetup.targetCameraY g);
      try contradiction. exact I.
Qed.

Lemma parallax_deliver (g : ThreeSetup.Globals) (e : ThreeSetup.PageEvent) :
  ThreeSetup.pointer_in_window e -> ThreeSetup.parallax_in_box g ->
  ThreeSetup.parallax_in_box
    (ThreeSetup.deliver Math_cos Math_sin intersect g e).
Proof.
  intros He (Hmx & Hmy & Htx & Hty & Hcx & Hcz).
  destruct e; cbn [ThreeSetup.deliver];
    try exact (conj Hmx (conj Hmy (conj Htx (conj Hty (conj Hcx Hcz))))).
  - (* the window's mousemove *)
    destruct He as (cx & cy & w & h & Ex & Ey & Ew & Eh & Hw & Hh & Hx & Hy).
    unfold ThreeSetup.parallax_in_box.
    cbn [ThreeSetup.onMouseMove ThreeSetup.mouseX ThreeSetup.mouseY
         ThreeSetup.targetCameraX ThreeSetup.targetCameraY
         ThreeSetup.camera_position].
    rewrite Ex, Ey, Ew, Eh. rewrite !div_Fin by lra. cbn [neg mul].
    assert (Hiw : (0 < / w)%Q) by now apply Qinv_lt_0_compat.
    assert (Hih : (0 < / h)%Q) by now apply Qinv_lt_0_compat.
    assert (Ew1 : (w * / w == 1)%Q) by (apply Qmult_inv_r; lra).
    assert (Eh1 : (h * / h == 1)%Q) by (apply Qmult_inv_r; lra).
    assert (0 <= cx * / w)%Q by (apply Qmult_le_0_compat; lra).
    assert (0 <= (w - cx) * / w)%Q by (apply Qmult_le_0_compat; lra).
    assert (0 <= cy * / h)%Q by (apply Qmult_le_0_compat; lra).
    assert (0 <= (h - cy) * / h)%Q by (apply Qmult_le_0_compat; lra).
    repeat split; auto; try apply Htx; try apply Hty; try apply Hcx;
      apply Qle_bool_iff; unfold Qdiv; lra.
  - (* a frame *)
    apply between_inv in Hmx, Hmy, Htx, Hty.
    destruct Hmx as (mx & Emx & Hmx). destruct Hmy as (my & Emy & Hmy).
    destruct Htx as (tx & Etx & Htx). destruct Hty as (ty & Ety & Hty).
    unfold ThreeSetup.parallax_in_box.
    cbn [ThreeSetup.animate ThreeSetup.mouseX ThreeSetup.mouseY
         ThreeSetup.targetCameraX ThreeSetup.targetCameraY
         ThreeSetup.camera_position Vector3.x Vector3.z].
    rewrite Emx, Emy, Etx, Ety.
    unfold ThreeSetup.MOUSE_INFLUENCE, ThreeSetup.MOUSE_SMOOTHING.
    cbn [mul sub add].
    assert (Hx : (-0.2 <= tx + (mx * 0.1 - tx) * 0.08 <= 0)%Q) by lra.
    assert (Hy : (0 <= ty + (my * 0.1 - ty) * 0.08 <= 0.2)%Q) by lra.
    pose proof (@clamp_offset_inactive (tx + (mx * 0.1 - tx) * 0.08)) as Cx.
    pose proof (@clamp_offset_inactive (ty + (my * 0.1 - ty) * 0.08)) as Cy.
    destruct (Math_max _ (Math_min _ (Fin (tx + _)))) as [cx| | |];
      try (exfalso; apply Cx; lra).
    destruct (Math_max _ (Math_min _ (Fin (ty + _)))) as [cy| | |];
      try (exfalso; apply Cy; lra).
    cbn [eqv] in Cx, Cy.
    specialize (Cx ltac:(lra)). specialize (Cy ltac:(lra)).
    repeat split; try (apply Qle_bool_iff; cbn; lra); reflexivity.
Qed.

(** X18.  While every pointer event falls inside the window, the clamp is
    never reached: through any run of the page the camera offsets stay in
    the box [-0.2, 0] x [0, 0.2], the camera's x in [-0.2, 0] and its
    depth at 8. *)
Theorem parallax_stays_in_box random doc win innerHeight
    (events : list ThreeSetup.PageEvent) :
  Forall ThreeSetup.pointer_in_window events ->
  ThreeSetup.parallax_in_box
    (ThreeSetup.play Math_cos Math_sin intersect events (ThreeSetup.init Math_tan random doc win innerHeight)).
Proof.
  intros H.
  apply (@play_invariant ThreeSetup.parallax_in_box
           ThreeSetup.pointer_in_window); [|exact H|].
  - intros g e He Hg. now apply parallax_deliver.
  - unfold ThreeSetup.parallax_in_box, ThreeSetup.init. cbn.
    repeat split; reflexivity.
Qed.

Lemma manager_play (events : list ThreeSetup.PageEvent) :
  forall (g : ThreeSetup.Globals) (m : CategoryCards),
    ThreeSetup.categoryCardsManager g = Some m ->
    ThreeSetup.categoryCardsManager (ThreeSetup.play Math_cos Math_sin intersect events g)
    = Some (run intersect (flat_map ThreeSetup.manager_event events) m).
Proof.
  induction events as [|e events IH]; intros g m E; cbn [flat_map].
  - exact E.
  - change (ThreeSetup.play Math_cos Math_sin intersect (e :: events) g)
      with (ThreeSetup.play Math_cos Math_sin intersect events (ThreeSetup.deliver Math_cos Math_sin intersect g e)).
    unfold run. rewrite fold_left_app. fold (run intersect).
    apply IH.
    destruct e; cbn [ThreeSetup.deliver ThreeSetup.manager_event
                     ThreeSetup.onWindowScroll ThreeSetup.onMouseMove
                     ThreeSetup.animate ThreeSetup.onWindowResize
                     ThreeSetup.on_canvas ThreeSetup.categoryCardsManager
                     fold_left handle];
      rewrite ?E; reflexivity.
Qed.

(** X19.  The page script drives the category manager exactly as a run of
    the manager's own events from [boot]: after any page events the
    manager is the one reached from the booted instance by its frame,
    resize and canvas events in the same order; scroll and window pointer
    events do not touch it. *)
Theorem script_drives_manager random doc win innerHeight
    (events : list ThreeSetup.PageEvent) :
  ThreeSetup.categoryCardsManager
    (ThreeSetup.play Math_cos Math_sin intersect events (ThreeSetup.init Math_tan random doc win innerHeight))
  = Some (run intersect (flat_map ThreeSetup.manager_event events)
            (boot Math_tan doc win)).
Proof. now apply manager_play. Qed.

End Script.

Lemma scroll_smoothing_no_overshoot_witness :
  exists y',
    ThreeSetup.scrollY
      (ThreeSetup.play PageSample.cos PageSample.sin Sample.ray
         PageSample.frames
         (ThreeSetup.onWindowScroll (Sample.win 400) PageSample.globals))
    = Fin y' /\
    (0 <= y' <= 400)%Q.
Proof.
  assert (Hf : Forall ThreeSetup.is_frame PageSample.frames)
    by (repeat constructor).
  destruct (@scroll_smoothing_no_overshoot PageSample.cos PageSample.sin
              Sample.ray PageSample.frames
              (ThreeSetup.onWindowScroll (Sample.win 400) PageSample.globals)
              0 400 Hf eq_refl eq_refl)
    as (_ & y' & E & Hup & _).
  exists y'. split; [exact E|].
  apply Hup. vm_compute. discriminate.
Defined.

Lemma camera_offsets_clamped_witness :
  between (-1.5)
    (ThreeSetup.targetCameraX
       (ThreeSetup.animate PageSample.cos PageSample.sin Sample.ray
          (Fin 1000) (Sample.doc 300) (Sample.win 400)
          PageSample.globals)) 1.5.
Proof.
  exact (proj1 (@camera_offsets_clamped PageSample.cos PageSample.sin
                  Sample.ray (Fin 1000) (Sample.doc 300) (Sample.win 400)
                  PageSample.globals I I I I)).
Defined.

Lemma parallax_stays_in_box_witness :
  Forall ThreeSetup.pointer_in_window PageSample.events /\
  ThreeSetup.parallax_in_box
    (ThreeSetup.play PageSample.cos PageSample.sin Sample.ray
       PageSample.events PageSample.globals).
Proof.
  assert (H : Forall ThreeSetup.pointer_in_window PageSample.events).
  { unfold PageSample.events, PageSample.frames. cbn [app].
    constructor; [exact I|]. constructor; [|repeat constructor].
    exists 900, 200, 1200, 800. repeat split; vm_compute; discriminate. }
  split; [exact H|].
  exact (@parallax_stays_in_box Sample.tan PageSample.cos PageSample.sin
           Sample.ray PageSample.random (Sample.doc 300) (Sample.win 0)
           (Fin 800) PageSample.events H).
Defined.

(* ================================================================== *)
(** ** The background cards *)

Section Background.

Variable Math_cos : number -> number.
Variable Math_sin : number -> number.

Lemma animate_spinning (timer scrollProgress animationSpeed : number)
    (cards : list RegularCards.Card) :
  Forall RegularCards.spinning cards ->
  Forall RegularCards.spinning
    (RegularCards.animate Math_cos Math_sin timer scrollProgress
       animationSpeed cards) /\
  Forall2 RegularCards.spins_on cards
    (RegularCards.animate Math_cos Math_sin timer scrollProgress
       animationSpeed cards) /\
  List.length (RegularCards.animate Math_cos Math_sin timer scrollProgress
                 animationSpeed cards) = List.length cards.
Proof.
  intros H. unfold RegularCards.animate, mapi.
  split; [|split; [|apply length_mapi_from]].
  - apply Forall_mapi_from. intros j card Hin. rewrite Forall_forall in H.
    destruct (H card Hin) as (v & rx & ry & Ev & Hv & Ex & Hx & Ey & Hy & Ez).
    exists v, (rx + v * 0.1)%Q, (ry + v * 0.7)%Q.
    cbn [RegularCards.rotationSpeed RegularCards.rotation
         RegularCards.position Vector3.x Vector3.y Vector3.z].
    rewrite Ev, Ex, Ey. cbn [mul add].
    repeat split; try reflexivity; lra.
  - revert H. generalize 0%nat.
    induction cards as [|card cards IH]; intros k H; cbn [mapi_from];
      constructor.
    + inversion H as [|c l Hc Hl]; subst.
      destruct Hc as (v & rx & ry & Ev & Hv & Ex & Hx & Ey & Hy & Ez).
      unfold RegularCards.spins_on.
      cbn [RegularCards.rotationSpeed RegularCards.rotation
           Vector3.x Vector3.y].
      rewrite Ev, Ex, Ey. cbn [mul add le].
      repeat split; try reflexivity; apply Qle_bool_iff; lra.
    + apply IH. now inversion H.
Qed.

Lemma frames_spinning (args : list (number * number * number)) :
  forall (cards : list RegularCards.Card),
    Forall RegularCards.spinning cards ->
    Forall RegularCards.spinning
      (RegularCards.frames Math_cos Math_sin args cards) /\
    List.length (RegularCards.frames Math_cos Math_sin args cards)
    = List.length cards.
Proof.
  induction args as [|[[timer sp] speed] args IH]; intros cards H.
  - cbn. auto.
  - change (RegularCards.frames Math_cos Math_sin
              ((timer, sp, speed) :: args) cards)
      with (RegularCards.frames Math_cos Math_sin args
              (RegularCards.animate Math_cos Math_sin timer sp speed cards)).
    destruct (animate_spinning timer sp speed H) as (A & _ & L).
    destruct (IH _ A) as [B C]. split; [exact B|]. now rewrite C.
Qed.

(** X20.  The background cards spin forward at their own rate: created
    with draws of [Math.random()] in [0, 1), each of the seven cards has a
    [rotationSpeed] between 0.002 and 0.007; after any calls of
    [animate], whatever the timers and the scroll progress, there are
    still seven cards, none has a negative [rotation.x] or [rotation.y],
    all orbit in the plane [z = 0], and one more call keeps every card's
    speed and decreases neither rotation. *)
Theorem regular_cards_spin (random : nat -> number)
    (args : list (number * number * number)) :
  (forall i, exists r, random i = Fin r /\ (0 <= r < 1)%Q) ->
  let cards := RegularCards.frames Math_cos Math_sin args
                 (RegularCards.createCards random []) in
  List.length cards = 7%nat /\
  Forall RegularCards.spinning cards /\
  forall timer scrollProgress animationSpeed,
    Forall2 RegularCards.spins_on cards
      (RegularCards.animate Math_cos Math_sin timer scrollProgress
         animationSpeed cards).
Proof.
  intros Hr cards.
  assert (H0 : Forall RegularCards.spinning
                 (RegularCards.createCards random [])).
  { unfold RegularCards.createCards, mapi. cbn [app].
    apply Forall_mapi_from. intros j img _.
    destruct (Hr j) as (r & Er & Hr0).
    exists (r * 0.005 + 0.002)%Q, 0%Q, 0%Q.
    cbn [RegularCards.rotationSpeed RegularCards.rotation
         RegularCards.position Vector3.x Vector3.y Vector3.z].
    rewrite Er. cbn [mul add].
    repeat split; try reflexivity; lra. }
  destruct (frames_spinning args H0) as [A B].
  split; [unfold cards; rewrite B; reflexivity|].
  split; [exact A|].
  intros timer sp speed.
  now destruct (animate_spinning timer sp speed A) as (_ & C & _).
Qed.

End Background.

Lemma regular_cards_spin_witness :
  (forall i, exists r, PageSample.random i = Fin r /\ (0 <= r < 1)%Q) /\
  Forall RegularCards.spinning
    (RegularCards.frames PageSample.cos PageSample.sin
       [(Fin 1, Fin 0, Fin 1); (Fin 2, Fin 0.2, Fin 1)]
       (RegularCards.createCards PageSample.random [])).
Proof.
  assert (Hr : forall i, exists r,
              PageSample.random i = Fin r /\ (0 <= r < 1)%Q).
  { intros i. exists 0.5. split; [reflexivity|].
    split; [vm_compute; discriminate | reflexivity]. }
  split; [exact Hr|].
  exact (proj1 (proj2 (@regular_cards_spin PageSample.cos PageSample.sin
                         PageSample.random
                         [(Fin 1, Fin 0, Fin 1); (Fin 2, Fin 0.2, Fin 1)]
                         Hr))).
Defined.

(* ================================================================== *)
(** ** The earlier layout *)

Section EarlierLayout.

Variable Math_tan : number -> number.

Lemma Earlier_createCards_targetX (el : Element) (win : Window)
    (s : CategoryCards) (i : nat) (card : Mesh) :
  cards s = [] ->
  nth_error (cards (Earlier.createCards Math_tan el win s)) i = Some card ->
  nth_error categories i <> None /\
  targetX (userData card)
  = (neg (of_nat (List.length categories) - Fin 1)
     * (Fin 1.5
        * Earlier.CARD_SCALE_of
            (calculateVisibleWidth Math_tan (Fin 20) (Fin 45)
               (aspect_of el win s))
        * (Fin 1 + Fin 0.3))
     / Fin 2
     + of_nat i
       * (Fin 1.5
          * Earlier.CARD_SCALE_of
              (calculateVisibleWidth Math_tan (Fin 20) (Fin 45)
                 (aspect_of el win s))
          * (Fin 1 + Fin 0.3)))%js.
Proof.
  intros Hc. unfold Earlier.createCards. fields. rewrite Hc. cbn [app].
  unfold mapi. rewrite nth_error_mapi_from.
  destruct (nth_error categories i) as [name|] eqn:En;
    cbn [option_map]; intros E; [|discriminate E].
  injection E as <-. split; [discriminate | reflexivity].
Qed.

(** The earlier targets in the exact model. *)
Lemma Earlier_createCards_targets (el : Element) (win : Window)
    (s : CategoryCards) (v : Q) :
  calculateVisibleWidth Math_tan (Fin 20) (Fin 45) (aspect_of el win s)
  = Fin v ->
  (0 <= v)%Q -> cards s = [] ->
  exists scale,
    Earlier.CARD_SCALE_of (Fin v) = Fin scale /\
    (0 <= scale <= 5)%Q /\
    forall i card,
      nth_error (cards (Earlier.createCards Math_tan el win s)) i
      = Some card ->
      exists tx,
        targetX (userData card) = Fin tx /\
        (tx == (inject_Z (Z.of_nat i) - 2) * (1.95 * scale))%Q /\
        (- (0.45 * v) <= tx - 0.75 * scale)%Q /\
        (tx + 0.75 * scale <= 0.45 * v)%Q.
Proof.
  intros Hv H0 Hc.
  assert (Es : exists scale, Earlier.CARD_SCALE_of (Fin v) = Fin scale /\
                 (0 <= scale <= 5)%Q /\ (9.3 * scale <= 0.9 * v)%Q).
  { unfold Earlier.CARD_SCALE_of. cbn [mul add].
    rewrite div_Fin by (intros E; discriminate E).
    unfold Math_min. cbn [le].
    assert (Ed : (1.5 * (5 + 4 * 0.3) == 9.3)%Q) by reflexivity.
    destruct (Qle_bool 5 _) eqn:E; qprops; eexists;
      (split; [reflexivity|]); rewrite Ed in *;
      unfold Qdiv in *; cbn [Qinv Qnum Qden] in *;
      (split; [split|]); lra. }
  destruct Es as (scale & Es & Hs & Hfit).
  exists scale. split; [exact Es|]. split; [exact Hs|].
  intros i card E.
  destruct (Earlier_createCards_targetX el win s i Hc E) as (En & ->).
  rewrite Hv, Es. unfold of_nat.
  cbn [categories List.length sub add mul neg].
  rewrite div_Fin by (intros E0; discriminate E0). cbn [add].
  eexists. split; [reflexivity|].
  assert (Hi : (i < 5)%nat) by (apply nth_error_Some in En; exact En).
  assert (Hz : (0 <= inject_Z (Z.of_nat i) <= 4)%Q).
  { split.
    - change 0%Q with (inject_Z 0). rewrite <- Zle_Qle. lia.
    - change 4%Q with (inject_Z 4). rewrite <- Zle_Qle. lia. }
  set (k := inject_Z (Z.of_nat i)) in *.
  change (inject_Z (Z.of_nat 5)) with 5%Q.
  assert (Hk0 : (0 <= k * scale)%Q) by (apply Qmult_le_0_compat; lra).
  assert (Hk4 : (0 <= (4 - k) * scale)%Q) by (apply Qmult_le_0_compat; lra).
  unfold Qdiv. cbn [Qinv Qnum Qden].
  split; [ring|]. split; lra.
Qed.

(** X21.  The earlier [createCards], which counts the targets from the
    leftmost one, also fits the row: for a visible width not below 1 its
    scale is between 0 and 5, its targets are in index order, and every
    card's footprint, its target plus or minus half the card width
    [1.5 * scale], lies within the visible width. *)
Theorem Earlier_createCards_layout_fits (el : Element) (win : Window)
    (s : CategoryCards) (v : Q) :
  calculateVisibleWidth Math_tan (Fin 20) (Fin 45) (aspect_of el win s)
  = Fin v ->
  (1 <= v)%Q -> cards s = [] ->
  exists scale,
    Earlier.CARD_SCALE_of (Fin v) = Fin scale /\
    (0 <= scale <= 5)%Q /\
    (forall i card tx,
       nth_error (cards (Earlier.createCards Math_tan el win s)) i
       = Some card ->
       targetX (userData card) = Fin tx ->
       (- (v / 2) <= tx - 1.5 * scale / 2)%Q /\
       (tx + 1.5 * scale / 2 <= v / 2)%Q) /\
    (forall i j ci cj txi txj,
       nth_error (cards (Earlier.createCards Math_tan el win s)) i = Some ci ->
       nth_error (cards (Earlier.createCards Math_tan el win s)) j = Some cj ->
       targetX (userData ci) = Fin txi ->
       targetX (userData cj) = Fin txj ->
       (i <= j)%nat -> (txi <= txj)%Q).
Proof.
  intros Hv H1 Hc.
  assert (H0 : (0 <= v)%Q) by lra.
  destruct (Earlier_createCards_targets el win s Hv H0 Hc)
    as (scale & Es & Hs & Ht).
  exists scale. split; [exact Es|]. split; [exact Hs|]. split.
  - intros i card tx E Etx.
    destruct (Ht i card E) as (tx' & Etx' & _ & Hlo & Hhi).
    rewrite Etx in Etx'. injection Etx' as <-.
    unfold Qdiv. cbn [Qinv Qnum Qden]. lra.
  - intros i j ci cj txi txj Ei Ej Eti Etj Hij.
    destruct (Ht i ci Ei) as (ti & Eti' & Hi & _).
    destruct (Ht j cj Ej) as (tj & Etj' & Hj & _).
    rewrite Eti in Eti'. injection Eti' as <-.
    rewrite Etj in Etj'. injection Etj' as <-.
    pose proof (inject_Z_nat_le Hij) as Hk. rewrite Hi, Hj.
    assert (0 <= (inject_Z (Z.of_nat j) - inject_Z (Z.of_nat i))
                 * (1.95 * scale))%Q
      by (apply Qmult_le_0_compat; lra).
    lra.
Qed.

End EarlierLayout.

Lemma Earlier_createCards_layout_fits_witness :
  exists v scale,
    calculateVisibleWidth Sample.tan (Fin 20) (Fin 45)
      (aspect_of Sample.container_el (Sample.win 0)
         (init (Sample.doc 300) constructor)) = Fin v /\
    (1 <= v)%Q /\
    Earlier.CARD_SCALE_of (Fin v) = Fin scale /\ (0 <= scale <= 5)%Q.
Proof.
  assert (Hv : exists v,
            calculateVisibleWidth Sample.tan (Fin 20) (Fin 45)
              (aspect_of Sample.container_el (Sample.win 0)
                 (init (Sample.doc 300) constructor)) = Fin v /\
            (1 <= v)%Q).
  { vm_compute. eexists. split; [reflexivity|discriminate]. }
  destruct Hv as (v & Hv & H1).
  destruct (@Earlier_createCards_layout_fits Sample.tan Sample.container_el
              (Sample.win 0) (init (Sample.doc 300) constructor) v
              Hv H1 eq_refl) as (scale & Es & Hs & _).
  exists v, scale. auto.
Defined.

(* ================================================================== *)
(** ** Clicks on the page, and when interactions unlock *)

Lemma needs_canvas_irrelevant (s t : CategoryCards) :
  mouseIsOver t = mouseIsOver s -> hoveredCard t = hoveredCard s ->
  is_null (renderer t) = is_null (renderer s) ->
  is_null (camera t) = is_null (camera s) ->
  hover_needs_canvas s -> hover_needs_canvas t.
Proof.
  intros Eo Eh Er Ec [H1 H2]. unfold hover_needs_canvas.
  rewrite Eo, Eh. split.
  - intros H. specialize (H1 H).
    destruct (renderer t), (renderer s); cbn in Er; congruence.
  - intros H. specialize (H2 H).
    destruct (camera t), (camera s); cbn in Ec; congruence.
Qed.

Lemma renderer_survives_set_cursor (s : CategoryCards) (c : Cursor) :
  renderer s <> None -> renderer (set_cursor s c) <> None.
Proof.
  unfold set_cursor. destruct (renderer s) eqn:E; [|congruence].
  intros _. cbn. discriminate.
Qed.

Lemma needs_canvas_cleared (s : CategoryCards) :
  hover_needs_canvas s ->
  hover_needs_canvas (set_cursor (set_hoveredCard s None) cursor_default).
Proof.
  intros [H1 H2]. unfold hover_needs_canvas. split.
  - rewrite mouseIsOver_set_cursor. cbn [set_hoveredCard mouseIsOver].
    intros H. apply renderer_survives_set_cursor. cbn. now apply H1.
  - rewrite hoveredCard_set_cursor. cbn. congruence.
Qed.

Section Clicks.

Variable Math_tan : number -> number.
Variable intersect : Vector2.t -> Camera -> list Mesh -> list nat.

Lemma needs_canvas_applyScrollAnimation (s : CategoryCards) :
  hover_needs_canvas s -> hover_needs_canvas (applyScrollAnimation s).
Proof.
  intros H. unfold applyScrollAnimation.
  destruct (Nat.eqb (List.length (cards s)) 0); [exact H|]. cbv zeta.
  destruct (_ && _).
  - assert (H1 : hover_needs_canvas
                   (set_interactionsEnabled s
                      (flipProgress (scrollProgress s) >=? Fin 1)))
      by (eapply needs_canvas_irrelevant; [| | | |exact H];
          fields; reflexivity).
    eapply needs_canvas_irrelevant;
      [| | | |exact (needs_canvas_cleared H1)]; fields; reflexivity.
  - eapply needs_canvas_irrelevant; [| | | |exact H]; fields; reflexivity.
Qed.

Lemma needs_canvas_checkIntersections (s : CategoryCards) :
  hover_needs_canvas s ->
  hover_needs_canvas (checkIntersections intersect s).
Proof.
  intros H. unfold checkIntersections.
  destruct (negb (interactionsEnabled s)).
  { destruct (negb (is_null (hoveredCard s))); [|exact H].
    eapply needs_canvas_irrelevant;
      [| | | |exact (needs_canvas_cleared H)]; fields; reflexivity. }
  destruct (negb (mouseIsOver s)); [exact H|].
  destruct (camera s) as [cam|] eqn:Ec; [|exact H].
  destruct (_ || _); [exact H|].
  destruct (intersectObjects _ _ _ _) as [|newHovered rest].
  - destruct (negb (is_null (hoveredCard s))); [|exact H].
    apply (needs_canvas_cleared H).
  - destruct (negb (same_mesh (hoveredCard s) newHovered)); [|exact H].
    destruct H as [H1 H2]. unfold hover_needs_canvas. split.
    + rewrite mouseIsOver_set_cursor. cbn [set_hoveredCard mouseIsOver].
      intros Ho. apply renderer_survives_set_cursor. cbn. now apply H1.
    + intros _. rewrite camera_set_cursor. cbn. rewrite Ec. discriminate.
Qed.

Lemma needs_canvas_handle (s : CategoryCards) (e : Event) :
  hover_needs_canvas s -> hover_needs_canvas (handle intersect s e).
Proof.
  intros H. destruct e; cbn [handle].
  - unfold animate. destruct (categories_section doc); [|exact H].
    cbv zeta.
    apply needs_canvas_checkIntersections,
          needs_canvas_applyScrollAnimation.
    eapply needs_canvas_irrelevant; [| | | |exact H];
      repeat match goal with
      | |- context [if ?b then _ else _] => destruct b
      | |- context [match stickyStartScroll ?o with _ => _ end] =>
          destruct (stickyStartScroll o)
      | |- context [updateSectionDimensions ?d ?t] =>
          unfold updateSectionDimensions; destruct (categories_section d)
      end; fields; reflexivity.
  - unfold onMouseMove.
    destruct (negb (container s) || is_null (renderer s)) eqn:En;
      [exact H|].
    destruct H as [H1 H2]. unfold hover_needs_canvas. fields.
    split; [|exact H2]. intros _.
    destruct (renderer s); [discriminate|].
    rewrite orb_true_r in En. discriminate En.
  - unfold onMouseLeave. fields.
    destruct (negb (is_null (hoveredCard s))).
    + assert (H0 : hover_needs_canvas
                     (set_mouse (set_mouseIsOver s false)
                        {| Vector2.x := Fin (-999);
                           Vector2.y := Fin (-999) |})).
      { destruct H as [H1 H2]. unfold hover_needs_canvas. fields.
        split; [discriminate | exact H2]. }
      exact (needs_canvas_cleared H0).
    + destruct H as [H1 H2]. unfold hover_needs_canvas. fields.
      split; [discriminate | exact H2].
  - now rewrite onClick_state.
  - unfold onResize.
    destruct (renderer s) as [r|] eqn:Er; [|exact H].
    destruct (camera s) as [c|] eqn:Ec; [|exact H].
    destruct (negb (container s)); [exact H|].
    unfold hover_needs_canvas, updateSectionDimensions.
    destruct (categories_section doc); fields; split; discriminate.
Qed.

Lemma run_needs_canvas doc win (events : list Event) :
  hover_needs_canvas (run intersect events (boot Math_tan doc win)).
Proof.
  apply (@run_invariant intersect hover_needs_canvas).
  - exact needs_canvas_handle.
  - assert (Hm : mouseIsOver (init doc constructor) = false).
    { unfold init. destruct (category_cards_container doc); [|reflexivity].
      unfold updateSectionDimensions.
      destruct (categories_section doc); reflexivity. }
    destruct (init_fresh doc) as (_ & Hh & _).
    unfold boot, createCards, hover_needs_canvas. fields.
    rewrite Hm, Hh. split; [discriminate | congruence].
Qed.

(** X22.  On the page the hover alone decides a click: in every state a
    click dispatches exactly the event naming the hovered card's position
    and category when a card is hovered, and nothing when none is; the
    tests on [interactionsEnabled], renderer and camera never refuse a
    click on a hovered card. *)
Theorem click_follows_hover doc win (events : list Event) :
  let s := run intersect events (boot Math_tan doc win) in
  snd (onClick s) = click_events s.
Proof.
  intros s.
  pose proof (run_Inv Math_tan intersect doc win events) as HI.
  pose proof (run_needs_canvas doc win events) as [H1 H2].
  fold s in HI, H1, H2.
  unfold onClick, click_events.
  destruct (hoveredCard s) as [ref|] eqn:Eh.
  2:{ destruct (_ || _); reflexivity. }
  assert (He : interactionsEnabled s = true).
  { destruct (interactionsEnabled s) eqn:E; [reflexivity|].
    rewrite (inv_enabled HI E) in Eh. discriminate Eh. }
  assert (Ho : mouseIsOver s = true).
  { destruct (mouseIsOver s) eqn:E; [reflexivity|].
    destruct (inv_over HI E) as [E' _]. rewrite E' in Eh. discriminate Eh. }
  specialize (H1 Ho). specialize (H2 ltac:(discriminate)). rewrite He.
  destruct (renderer s); [|congruence].
  destruct (camera s); [|congruence]. cbn [negb orb is_null].
  pose proof (inv_ref HI Eh) as Hlt.
  destruct (nth_error (cards s) ref) as [card|] eqn:Ec.
  2:{ apply nth_error_None in Ec. lia. }
  destruct (Forall2_nth_error_r (run_same_static Math_tan intersect
                                   doc win events) ref Ec)
    as (card0 & E0 & Hs).
  destruct (boot_cards Math_tan doc win ref E0) as (A & B & _).
  unfold same_static in Hs. destruct Hs as (Si & Sn & _).
  cbn [snd]. rewrite Si, Sn, A, B. reflexivity.
Qed.


End Clicks.

